(** * LibretroCore: a shallow embedding of the libretro host wrapper

    Source: [MacMAME/Core/LibretroCore.c] and [LibretroCore.h].

    The C file keeps the whole host in file-level statics.  They become the
    fields of one record, [host], and every C function becomes a function
    from [host] to [host] (paired with its return value when it has one).
    What lies outside the file is made explicit:
    - the dynamic loader, the allocator and the file system are a [platform];
    - the loaded core is opaque: an entry point is known by what a call to it
      returns and by the host callbacks it issues before returning;
    - calls that leave the host (dlopen, dlclose, core entry points, malloc,
      free) are appended to a [trace], so that statements such as "the handle
      is closed" or "the entry point is not called" can be read off the state.
      Output written with printf is not recorded.

    Integers are [Z]; [size_t] arithmetic has its wrap-around written out
    ([size_add], [size_sub], [size_mul]); [double] is a primitive float.

    The file-based save states and the SRAM file operations are modelled
    over a [disk] that maps paths to contents, with the C library's answers
    of one call collected in a [stdio].  [log_callback], which only prints,
    is left out. *)

From Stdlib Require Import ZArith String PrimFloat Lia.
From Stdlib.Strings Require Import Byte.
From stdpp Require Import base tactics list numbers.

Open Scope Z_scope.

(** ** Constants of LibretroCore.h *)

Definition RETRO_PIXEL_FORMAT_0RGB1555 : Z := 0.
Definition RETRO_PIXEL_FORMAT_XRGB8888 : Z := 1.
Definition RETRO_PIXEL_FORMAT_RGB565 : Z := 2.

Definition RETRO_DEVICE_JOYPAD : Z := 1.

Definition RETRO_ENVIRONMENT_GET_CAN_DUPE : Z := 3.
Definition RETRO_ENVIRONMENT_GET_SYSTEM_DIRECTORY : Z := 9.
Definition RETRO_ENVIRONMENT_SET_PIXEL_FORMAT : Z := 10.
Definition RETRO_ENVIRONMENT_GET_VARIABLE : Z := 15.
Definition RETRO_ENVIRONMENT_SET_VARIABLES : Z := 16.
Definition RETRO_ENVIRONMENT_GET_VARIABLE_UPDATE : Z := 17.
Definition RETRO_ENVIRONMENT_SET_SUPPORT_NO_GAME : Z := 18.
Definition RETRO_ENVIRONMENT_GET_LOG_INTERFACE : Z := 27.
Definition RETRO_ENVIRONMENT_GET_CORE_ASSETS_DIRECTORY : Z := 30.
Definition RETRO_ENVIRONMENT_GET_SAVE_DIRECTORY : Z := 31.
Definition RETRO_ENVIRONMENT_SET_CORE_OPTIONS_V2 : Z := 67.

Definition RETRO_MEMORY_SAVE_RAM : Z := 0.

(** Constants of LibretroCore.c *)

Definition MAX_AUDIO_FRAMES : Z := 8192.
Definition MAX_PORTS : Z := 4.
Definition MAX_BUTTONS : Z := 16.
Definition DIRECTORY_SIZE : Z := 4096.

(** ** Machine arithmetic: [size_t] is 64 bits wide *)

Definition SIZE_MODULUS : Z := 18446744073709551616.
Definition size_add (a b : Z) : Z := (a + b) mod SIZE_MODULUS.
Definition size_sub (a b : Z) : Z := (a - b) mod SIZE_MODULUS.
Definition size_mul (a b : Z) : Z := (a * b) mod SIZE_MODULUS.
Definition sizeof_int16 : Z := 2.

(** ** Structures of the libretro ABI *)

(** [const char *] fields: [None] is the null pointer. *)
Record retro_system_info := {
  library_name : option string;
  library_version : option string;
  valid_extensions : option string;
  need_fullpath : bool;
  block_extract : bool
}.

Record retro_game_geometry := {
  base_width : Z;
  base_height : Z;
  max_width : Z;
  max_height : Z;
  aspect_ratio : float
}.

Record retro_system_timing := {
  fps : float;
  sample_rate : float
}.

Record retro_system_av_info := {
  geometry : retro_game_geometry;
  timing : retro_system_timing
}.

Record retro_game_info := {
  path : string;
  data : option (list byte);
  size : Z;
  meta : option string
}.

(** ** The core as the host sees it *)

(** A call of one of the six host callbacks by the core, with its arguments.
    A [const void *data] is [None] when null and otherwise the bytes readable
    there; a [const int16_t *data] is the samples readable there. *)
Inductive callback : Type :=
  | CbEnvironment (cmd : Z) (payload : Z)
  | CbVideoRefresh (pixels : option (list byte)) (width height pitch : Z)
  | CbAudioSample (left right : Z)
  | CbAudioSampleBatch (samples : list Z) (frames : Z)
  | CbInputPoll
  | CbInputState (port device index id : Z).

(** A pointer obtained from dlsym: null, or an entry point described by the
    behaviour [B] of a call to it. *)
Definition fnptr (B : Type) : Type := option B.

Definition bound {B : Type} (f : fnptr B) : bool :=
  match f with Some _ => true | None => false end.

(** A data pointer tested against null. *)
Definition non_null {A : Type} (p : option A) : bool :=
  match p with Some _ => true | None => false end.

(** The 21 static function pointers, in the order of the source.  Entry points
    that only acknowledge a call carry [unit]; those that return a value carry
    it; [retro_init], [retro_run] and [retro_load_game] carry the callbacks
    they issue (the spec's section 5: callbacks fire inside initialize,
    load_game and run_frame only). *)
Record core_symbols := {
  core_set_environment : fnptr unit;
  core_set_video_refresh : fnptr unit;
  core_set_audio_sample : fnptr unit;
  core_set_audio_sample_batch : fnptr unit;
  core_set_input_poll : fnptr unit;
  core_set_input_state : fnptr unit;
  core_init : fnptr (list callback);
  core_deinit : fnptr unit;
  core_api_version : fnptr Z;
  core_get_system_info : fnptr retro_system_info;
  core_get_system_av_info : fnptr retro_system_av_info;
  core_set_controller_port_device : fnptr unit;
  core_reset : fnptr unit;
  core_run : fnptr (list callback);
  core_serialize_size : fnptr Z;
  core_serialize : fnptr bool;
  core_unserialize : fnptr bool;
  core_load_game : fnptr (retro_game_info -> bool * list callback);
  core_unload_game : fnptr unit;
  core_get_memory_data : fnptr (option (list byte));
  core_get_memory_size : fnptr Z
}.

(** All pointers null: the value of the statics before any load. *)
Definition no_symbols : core_symbols :=
  {| core_set_environment := None; core_set_video_refresh := None;
     core_set_audio_sample := None; core_set_audio_sample_batch := None;
     core_set_input_poll := None; core_set_input_state := None;
     core_init := None; core_deinit := None; core_api_version := None;
     core_get_system_info := None; core_get_system_av_info := None;
     core_set_controller_port_device := None; core_reset := None;
     core_run := None; core_serialize_size := None; core_serialize := None;
     core_unserialize := None; core_load_game := None; core_unload_game := None;
     core_get_memory_data := None; core_get_memory_size := None |}.

(** ** The platform under the host *)

(** What dlopen yields for a loadable file: a non-null handle and the symbols
    dlsym resolves against it. *)
Record shared_object := {
  dl_handle : N;
  dl_exports : core_symbols
}.

Record platform := {
  (** dlopen: [None] when the file cannot be opened *)
  dlopen : string -> option shared_object;
  (** malloc: whether a request of that many bytes is served *)
  malloc_ok : Z -> bool;
  (** the indeterminate contents of freshly allocated storage *)
  uninit : Z -> byte;
  (** fopen + ftell + fread of a whole file: [None] when it cannot be opened *)
  read_file : string -> option (list byte)
}.

Definition byte_val (b : byte) : Z := Z.of_N (Byte.to_N b).

(** An [int16_t] read from two bytes, low byte first. *)
Definition int16_of_bytes (lo hi : byte) : Z :=
  let u := byte_val lo + 256 * byte_val hi in
  if u <? 32768 then u else u - 65536.

(** Fresh storage of [cells] cells, the first one read at [offset]. *)
Fixpoint fresh {A : Type} (content : Z -> A) (cells : nat) (offset : Z) : list A :=
  match cells with
  | O => []
  | S n => content offset :: fresh content n (offset + 1)
  end.

(** malloc(n) viewed as bytes and as [int16_t] cells. *)
Definition malloc (os : platform) (n : Z) : option (list byte) :=
  if malloc_ok os n then Some (fresh (uninit os) (Z.to_nat n) 0) else None.

Definition malloc_int16 (os : platform) (n : Z) : option (list Z) :=
  if malloc_ok os n
  then Some (fresh (fun i => int16_of_bytes (uninit os (2 * i)) (uninit os (2 * i + 1)))
                   (Z.to_nat (n / sizeof_int16)) 0)
  else None.

(** memcpy(&dst[off], src, n cells).  Cells outside [dst] are ignored by
    [list_inserts]; in C such a copy is undefined. *)
Definition memcpy {A : Type} (dst : list A) (off : nat) (src : list A) (n : nat) : list A :=
  list_inserts off (take n src) dst.

(** ** Calls that leave the host *)

Inductive storage : Type := FrameStorage | AudioStorage | ContentStorage.

Inductive event : Type :=
  | EvDlopen (file : string)
  | EvDlclose (handle : N)
  | EvCall (entry : string)
  | EvMalloc (what : storage) (bytes : Z)
  | EvFree (what : storage) (live : bool).

(** ** The static state of LibretroCore.c *)

(** One field per file-level static, under the source's name.  The 21 core
    function pointers are grouped in [syms].  [audio_buffer_size] is declared
    in the source but never read or written, and is left out.  [trace] is the
    only field that is not a static: it records the calls that leave the host. *)
Record host := {
  core_handle : option N;
  game_loaded : bool;
  pixel_format : Z;
  system_directory : string;
  save_directory : string;
  video_width : Z;
  video_height : Z;
  video_pitch : Z;
  video_fps : float;
  framebuffer : option (list byte);
  framebuffer_size : Z;
  audio_sample_rate : float;
  audio_buffer : option (list Z);
  audio_frames : Z;
  input_state : list (list bool);
  syms : core_symbols;
  system_info : retro_system_info;
  trace : list event
}.

(** memset(&system_info, 0, sizeof system_info) *)
Definition zero_system_info : retro_system_info :=
  {| library_name := None; library_version := None; valid_extensions := None;
     need_fullpath := false; block_extract := false |}.

(** The statics as their initialisers leave them. *)
Definition initial_host : host :=
  {| core_handle := None;
     game_loaded := false;
     pixel_format := RETRO_PIXEL_FORMAT_XRGB8888;
     system_directory := EmptyString;
     save_directory := EmptyString;
     video_width := 0;
     video_height := 0;
     video_pitch := 0;
     video_fps := 60%float;
     framebuffer := None;
     framebuffer_size := 0;
     audio_sample_rate := 44100%float;
     audio_buffer := None;
     audio_frames := 0;
     input_state := replicate (Z.to_nat MAX_PORTS) (replicate (Z.to_nat MAX_BUTTONS) false);
     syms := no_symbols;
     system_info := zero_system_info;
     trace := [] |}.

(** Assignment to one static. *)
Definition with_core_handle (v : option N) (st : host) : host :=
  {| core_handle := v; game_loaded := game_loaded st; pixel_format := pixel_format st;
     system_directory := system_directory st; save_directory := save_directory st;
     video_width := video_width st; video_height := video_height st;
     video_pitch := video_pitch st; video_fps := video_fps st;
     framebuffer := framebuffer st; framebuffer_size := framebuffer_size st;
     audio_sample_rate := audio_sample_rate st; audio_buffer := audio_buffer st;
     audio_frames := audio_frames st; input_state := input_state st; syms := syms st;
     system_info := system_info st; trace := trace st |}.

Definition with_game_loaded (v : bool) (st : host) : host :=
  {| core_handle := core_handle st; game_loaded := v; pixel_format := pixel_format st;
     system_directory := system_directory st; save_directory := save_directory st;
     video_width := video_width st; video_height := video_height st;
     video_pitch := video_pitch st; video_fps := video_fps st;
     framebuffer := framebuffer st; framebuffer_size := framebuffer_size st;
     audio_sample_rate := audio_sample_rate st; audio_buffer := audio_buffer st;
     audio_frames := audio_frames st; input_state := input_state st; syms := syms st;
     system_info := system_info st; trace := trace st |}.

Definition with_pixel_format (v : Z) (st : host) : host :=
  {| core_handle := core_handle st; game_loaded := game_loaded st; pixel_format := v;
     system_directory := system_directory st; save_directory := save_directory st;
     video_width := video_width st; video_height := video_height st;
     video_pitch := video_pitch st; video_fps := video_fps st;
     framebuffer := framebuffer st; framebuffer_size := framebuffer_size st;
     audio_sample_rate := audio_sample_rate st; audio_buffer := audio_buffer st;
     audio_frames := audio_frames st; input_state := input_state st; syms := syms st;
     system_info := system_info st; trace := trace st |}.

Definition with_system_directory (v : string) (st : host) : host :=
  {| core_handle := core_handle st; game_loaded := game_loaded st;
     pixel_format := pixel_format st; system_directory := v;
     save_directory := save_directory st; video_width := video_width st;
     video_height := video_height st; video_pitch := video_pitch st;
     video_fps := video_fps st; framebuffer := framebuffer st;
     framebuffer_size := framebuffer_size st; audio_sample_rate := audio_sample_rate st;
     audio_buffer := audio_buffer st; audio_frames := audio_frames st;
     input_state := input_state st; syms := syms st; system_info := system_info st;
     trace := trace st |}.

Definition with_save_directory (v : string) (st : host) : host :=
  {| core_handle := core_handle st; game_loaded := game_loaded st;
     pixel_format := pixel_format st; system_directory := system_directory st;
     save_directory := v; video_width := video_width st; video_height := video_height st;
     video_pitch := video_pitch st; video_fps := video_fps st;
     framebuffer := framebuffer st; framebuffer_size := framebuffer_size st;
     audio_sample_rate := audio_sample_rate st; audio_buffer := audio_buffer st;
     audio_frames := audio_frames st; input_state := input_state st; syms := syms st;
     system_info := system_info st; trace := trace st |}.

Definition with_video_width (v : Z) (st : host) : host :=
  {| core_handle := core_handle st; game_loaded := game_loaded st;
     pixel_format := pixel_format st; system_directory := system_directory st;
     save_directory := save_directory st; video_width := v;
     video_height := video_height st; video_pitch := video_pitch st;
     video_fps := video_fps st; framebuffer := framebuffer st;
     framebuffer_size := framebuffer_size st; audio_sample_rate := audio_sample_rate st;
     audio_buffer := audio_buffer st; audio_frames := audio_frames st;
     input_state := input_state st; syms := syms st; system_info := system_info st;
     trace := trace st |}.

Definition with_video_height (v : Z) (st : host) : host :=
  {| core_handle := core_handle st; game_loaded := game_loaded st;
     pixel_format := pixel_format st; system_directory := system_directory st;
     save_directory := save_directory st; video_width := video_width st; video_height := v;
     video_pitch := video_pitch st; video_fps := video_fps st;
     framebuffer := framebuffer st; framebuffer_size := framebuffer_size st;
     audio_sample_rate := audio_sample_rate st; audio_buffer := audio_buffer st;
     audio_frames := audio_frames st; input_state := input_state st; syms := syms st;
     system_info := system_info st; trace := trace st |}.

Definition with_video_pitch (v : Z) (st : host) : host :=
  {| core_handle := core_handle st; game_loaded := game_loaded st;
     pixel_format := pixel_format st; system_directory := system_directory st;
     save_directory := save_directory st; video_width := video_width st;
     video_height := video_height st; video_pitch := v; video_fps := video_fps st;
     framebuffer := framebuffer st; framebuffer_size := framebuffer_size st;
     audio_sample_rate := audio_sample_rate st; audio_buffer := audio_buffer st;
     audio_frames := audio_frames st; input_state := input_state st; syms := syms st;
     system_info := system_info st; trace := trace st |}.

Definition with_video_fps (v : float) (st : host) : host :=
  {| core_handle := core_handle st; game_loaded := game_loaded st;
     pixel_format := pixel_format st; system_directory := system_directory st;
     save_directory := save_directory st; video_width := video_width st;
     video_height := video_height st; video_pitch := video_pitch st; video_fps := v;
     framebuffer := framebuffer st; framebuffer_size := framebuffer_size st;
     audio_sample_rate := audio_sample_rate st; audio_buffer := audio_buffer st;
     audio_frames := audio_frames st; input_state := input_state st; syms := syms st;
     system_info := system_info st; trace := trace st |}.

Definition with_framebuffer (v : option (list byte)) (st : host) : host :=
  {| core_handle := core_handle st; game_loaded := game_loaded st;
     pixel_format := pixel_format st; system_directory := system_directory st;
     save_directory := save_directory st; video_width := video_width st;
     video_height := video_height st; video_pitch := video_pitch st;
     video_fps := video_fps st; framebuffer := v; framebuffer_size := framebuffer_size st;
     audio_sample_rate := audio_sample_rate st; audio_buffer := audio_buffer st;
     audio_frames := audio_frames st; input_state := input_state st; syms := syms st;
     system_info := system_info st; trace := trace st |}.

Definition with_framebuffer_size (v : Z) (st : host) : host :=
  {| core_handle := core_handle st; game_loaded := game_loaded st;
     pixel_format := pixel_format st; system_directory := system_directory st;
     save_directory := save_directory st; video_width := video_width st;
     video_height := video_height st; video_pitch := video_pitch st;
     video_fps := video_fps st; framebuffer := framebuffer st; framebuffer_size := v;
     audio_sample_rate := audio_sample_rate st; audio_buffer := audio_buffer st;
     audio_frames := audio_frames st; input_state := input_state st; syms := syms st;
     system_info := system_info st; trace := trace st |}.

Definition with_audio_sample_rate (v : float) (st : host) : host :=
  {| core_handle := core_handle st; game_loaded := game_loaded st;
     pixel_format := pixel_format st; system_directory := system_directory st;
     save_directory := save_directory st; video_width := video_width st;
     video_height := video_height st; video_pitch := video_pitch st;
     video_fps := video_fps st; framebuffer := framebuffer st;
     framebuffer_size := framebuffer_size st; audio_sample_rate := v;
     audio_buffer := audio_buffer st; audio_frames := audio_frames st;
     input_state := input_state st; syms := syms st; system_info := system_info st;
     trace := trace st |}.

Definition with_audio_buffer (v : option (list Z)) (st : host) : host :=
  {| core_handle := core_handle st; game_loaded := game_loaded st;
     pixel_format := pixel_format st; system_directory := system_directory st;
     save_directory := save_directory st; video_width := video_width st;
     video_height := video_height st; video_pitch := video_pitch st;
     video_fps := video_fps st; framebuffer := framebuffer st;
     framebuffer_size := framebuffer_size st; audio_sample_rate := audio_sample_rate st;
     audio_buffer := v; audio_frames := audio_frames st; input_state := input_state st;
     syms := syms st; system_info := system_info st; trace := trace st |}.

Definition with_audio_frames (v : Z) (st : host) : host :=
  {| core_handle := core_handle st; game_loaded := game_loaded st;
     pixel_format := pixel_format st; system_directory := system_directory st;
     save_directory := save_directory st; video_width := video_width st;
     video_height := video_height st; video_pitch := video_pitch st;
     video_fps := video_fps st; framebuffer := framebuffer st;
     framebuffer_size := framebuffer_size st; audio_sample_rate := audio_sample_rate st;
     audio_buffer := audio_buffer st; audio_frames := v; input_state := input_state st;
     syms := syms st; system_info := system_info st; trace := trace st |}.

Definition with_input_state (v : list (list bool)) (st : host) : host :=
  {| core_handle := core_handle st; game_loaded := game_loaded st;
     pixel_format := pixel_format st; system_directory := system_directory st;
     save_directory := save_directory st; video_width := video_width st;
     video_height := video_height st; video_pitch := video_pitch st;
     video_fps := video_fps st; framebuffer := framebuffer st;
     framebuffer_size := framebuffer_size st; audio_sample_rate := audio_sample_rate st;
     audio_buffer := audio_buffer st; audio_frames := audio_frames st; input_state := v;
     syms := syms st; system_info := system_info st; trace := trace st |}.

Definition with_syms (v : core_symbols) (st : host) : host :=
  {| core_handle := core_handle st; game_loaded := game_loaded st;
     pixel_format := pixel_format st; system_directory := system_directory st;
     save_directory := save_directory st; video_width := video_width st;
     video_height := video_height st; video_pitch := video_pitch st;
     video_fps := video_fps st; framebuffer := framebuffer st;
     framebuffer_size := framebuffer_size st; audio_sample_rate := audio_sample_rate st;
     audio_buffer := audio_buffer st; audio_frames := audio_frames st;
     input_state := input_state st; syms := v; system_info := system_info st;
     trace := trace st |}.

Definition with_system_info (v : retro_system_info) (st : host) : host :=
  {| core_handle := core_handle st; game_loaded := game_loaded st;
     pixel_format := pixel_format st; system_directory := system_directory st;
     save_directory := save_directory st; video_width := video_width st;
     video_height := video_height st; video_pitch := video_pitch st;
     video_fps := video_fps st; framebuffer := framebuffer st;
     framebuffer_size := framebuffer_size st; audio_sample_rate := audio_sample_rate st;
     audio_buffer := audio_buffer st; audio_frames := audio_frames st;
     input_state := input_state st; syms := syms st; system_info := v; trace := trace st |}.

Definition with_trace (v : list event) (st : host) : host :=
  {| core_handle := core_handle st; game_loaded := game_loaded st;
     pixel_format := pixel_format st; system_directory := system_directory st;
     save_directory := save_directory st; video_width := video_width st;
     video_height := video_height st; video_pitch := video_pitch st;
     video_fps := video_fps st; framebuffer := framebuffer st;
     framebuffer_size := framebuffer_size st; audio_sample_rate := audio_sample_rate st;
     audio_buffer := audio_buffer st; audio_frames := audio_frames st;
     input_state := input_state st; syms := syms st; system_info := system_info st;
     trace := v |}.

Definition log (e : event) (st : host) : host := with_trace (trace st ++ [e]) st.

(** ** Callback implementations *)

(** [video_refresh_callback]: a null frame is a duplicate and changes nothing. *)
Definition video_refresh_callback (os : platform)
    (data : option (list byte)) (width height pitch : Z) (st : host) : host :=
  match data with
  | None => st
  | Some src =>
    let st := with_video_width width st in
    let st := with_video_height height st in
    let st := with_video_pitch pitch st in
    (* computed by the source and never used *)
    let bytes_per_pixel := if pixel_format st =? RETRO_PIXEL_FORMAT_XRGB8888 then 4 else 2 in
    let required_size := size_mul height pitch in
    let st :=
      if framebuffer_size st <? required_size then
        let st := log (EvFree FrameStorage (non_null (framebuffer st))) st in
        let st := log (EvMalloc FrameStorage required_size) st in
        let st := with_framebuffer (malloc os required_size) st in
        with_framebuffer_size required_size st
      else st in
    match framebuffer st with
    | Some fb => with_framebuffer (Some (memcpy fb 0 src (Z.to_nat required_size))) st
    | None => st
    end
  end.

(** [audio_sample_callback]: one stereo pair, dropped when the queue is full
    or there is no buffer. *)
Definition audio_sample_callback (left right : Z) (st : host) : host :=
  match audio_buffer st with
  | Some buf =>
    if audio_frames st <? MAX_AUDIO_FRAMES then
      let buf := <[Z.to_nat (size_mul (audio_frames st) 2) := left]> buf in
      let buf := <[Z.to_nat (size_add (size_mul (audio_frames st) 2) 1) := right]> buf in
      with_audio_frames (size_add (audio_frames st) 1) (with_audio_buffer (Some buf) st)
    else st
  | None => st
  end.

(** [audio_sample_batch_callback]: returns the number of frames taken. *)
Definition audio_sample_batch_callback (data : list Z) (frames : Z) (st : host) : Z * host :=
  match audio_buffer st with
  | None => (0, st)
  | Some buf =>
    let to_copy := frames in
    let to_copy :=
      if MAX_AUDIO_FRAMES <? size_add (audio_frames st) to_copy
      then size_sub MAX_AUDIO_FRAMES (audio_frames st)
      else to_copy in
    if 0 <? to_copy then
      let nbytes := size_mul (size_mul to_copy 2) sizeof_int16 in
      let buf := memcpy buf (Z.to_nat (size_mul (audio_frames st) 2))
                        data (Z.to_nat (nbytes / sizeof_int16)) in
      (to_copy, with_audio_frames (size_add (audio_frames st) to_copy)
                  (with_audio_buffer (Some buf) st))
    else (to_copy, st)
  end.

(** [input_poll_callback]: input is set externally through [libretro_set_button]. *)
Definition input_poll_callback (st : host) : host := st.

Definition input_state_callback (port device index id : Z) (st : host) : Z :=
  if (MAX_PORTS <=? port) || negb (device =? RETRO_DEVICE_JOYPAD) || (MAX_BUTTONS <=? id)
  then 0
  else match input_state st !! Z.to_nat port with
       | Some row => match row !! Z.to_nat id with
                     | Some true => 1
                     | _ => 0
                     end
       | None => 0
       end.

(** What [environment_callback] writes through its [void *data] argument. *)
Inductive env_out : Type :=
  | OutNothing
  | OutLogInterface
  | OutBool (b : bool)
  | OutPath (dir : string)
  | OutNullValue.

Definition dir_or_dot (dir : string) : string :=
  match dir with EmptyString => "."%string | _ => dir end.

(** [environment_callback]: [payload] is the [int] read through [data], which
    only RETRO_ENVIRONMENT_SET_PIXEL_FORMAT reads. *)
Definition environment_callback (cmd : Z) (payload : Z) (st : host) : bool * env_out * host :=
  if cmd =? RETRO_ENVIRONMENT_GET_LOG_INTERFACE then (true, OutLogInterface, st)
  else if cmd =? RETRO_ENVIRONMENT_GET_CAN_DUPE then (true, OutBool true, st)
  else if cmd =? RETRO_ENVIRONMENT_SET_PIXEL_FORMAT then
    (true, OutNothing, with_pixel_format payload st)
  else if cmd =? RETRO_ENVIRONMENT_GET_SYSTEM_DIRECTORY then
    (true, OutPath (dir_or_dot (system_directory st)), st)
  else if cmd =? RETRO_ENVIRONMENT_GET_SAVE_DIRECTORY then
    (true, OutPath (dir_or_dot (save_directory st)), st)
  else if cmd =? RETRO_ENVIRONMENT_GET_CORE_ASSETS_DIRECTORY then
    (true, OutPath (dir_or_dot (system_directory st)), st)
  else if cmd =? RETRO_ENVIRONMENT_SET_SUPPORT_NO_GAME then (true, OutNothing, st)
  else if cmd =? RETRO_ENVIRONMENT_GET_VARIABLE then (false, OutNullValue, st)
  else if (cmd =? RETRO_ENVIRONMENT_SET_VARIABLES)
          || (cmd =? RETRO_ENVIRONMENT_SET_CORE_OPTIONS_V2) then (true, OutNothing, st)
  else if cmd =? RETRO_ENVIRONMENT_GET_VARIABLE_UPDATE then (true, OutBool false, st)
  else (false, OutNothing, st).

(** ** Running the core *)

(** Which host callbacks the core holds: [environment_callback] from
    [retro_set_environment] on, the other five once their setters have been
    called.  A core cannot call a callback it was never handed. *)
Definition holds_callback (after_init : bool) (s : core_symbols) (cb : callback) : bool :=
  match cb with
  | CbEnvironment _ _ => bound (core_set_environment s)
  | CbVideoRefresh _ _ _ _ => after_init && bound (core_set_video_refresh s)
  | CbAudioSample _ _ => after_init && bound (core_set_audio_sample s)
  | CbAudioSampleBatch _ _ => after_init && bound (core_set_audio_sample_batch s)
  | CbInputPoll => after_init && bound (core_set_input_poll s)
  | CbInputState _ _ _ _ => after_init && bound (core_set_input_state s)
  end.

Definition dispatch (os : platform) (cb : callback) (st : host) : host :=
  match cb with
  | CbEnvironment cmd payload => (environment_callback cmd payload st).2
  | CbVideoRefresh pixels width height pitch =>
      video_refresh_callback os pixels width height pitch st
  | CbAudioSample l r => audio_sample_callback l r st
  | CbAudioSampleBatch samples frames => (audio_sample_batch_callback samples frames st).2
  | CbInputPoll => input_poll_callback st
  | CbInputState _ _ _ _ => st
  end.

(** The callbacks a core entry point issues before it returns, in order. *)
Definition core_calls_back (os : platform) (after_init : bool)
    (script : list callback) (st : host) : host :=
  foldl (fun st cb => if holds_callback after_init (syms st) cb then dispatch os cb st else st)
        st script.

(** ** Game management (first part: [libretro_unload_game] is called by
    [libretro_unload_core]) *)

Definition libretro_unload_game (st : host) : host :=
  if non_null (core_handle st) && bound (core_unload_game (syms st)) && game_loaded st then
    let st := log (EvCall "retro_unload_game") st in
    with_game_loaded false st
  else st.

Definition libretro_is_game_loaded (st : host) : bool := game_loaded st.

(** ** Core loading *)

Definition libretro_unload_core (st : host) : host :=
  let st := if game_loaded st then libretro_unload_game st else st in
  let st :=
    match core_handle st with
    | Some h =>
      let st := if bound (core_deinit (syms st)) then log (EvCall "retro_deinit") st else st in
      let st := log (EvDlclose h) st in
      with_core_handle None st
    | None => st
    end in
  let st := log (EvFree FrameStorage (non_null (framebuffer st))) st in
  let st := with_framebuffer None st in
  let st := with_framebuffer_size 0 st in
  let st := log (EvFree AudioStorage (non_null (audio_buffer st))) st in
  let st := with_audio_buffer None st in
  with_system_info zero_system_info st.

(** [if (core_set_x) core_set_x(x_callback);] *)
Definition hand_over (setter : fnptr unit) (entry : string) (st : host) : host :=
  if bound setter then log (EvCall entry) st else st.

Definition libretro_load_core (os : platform) (path : string) (st : host) : bool * host :=
  let st := if non_null (core_handle st) then libretro_unload_core st else st in
  let st := log (EvDlopen path) st in
  match dlopen os path with
  | None => (false, with_core_handle None st)
  | Some so =>
    let st := with_core_handle (Some (dl_handle so)) st in
    (* LOAD_SYM, 21 times *)
    let st := with_syms (dl_exports so) st in
    let s := syms st in
    if negb (bound (core_init s)) || negb (bound (core_deinit s))
       || negb (bound (core_run s)) || negb (bound (core_load_game s))
    then
      let st := log (EvDlclose (dl_handle so)) st in
      (false, with_core_handle None st)
    else
      let st := hand_over (core_set_environment s) "retro_set_environment" st in
      let st :=
        match core_init s with
        | Some script => core_calls_back os false script (log (EvCall "retro_init") st)
        | None => st
        end in
      let st := hand_over (core_set_video_refresh s) "retro_set_video_refresh" st in
      let st := hand_over (core_set_audio_sample s) "retro_set_audio_sample" st in
      let st := hand_over (core_set_audio_sample_batch s) "retro_set_audio_sample_batch" st in
      let st := hand_over (core_set_input_poll s) "retro_set_input_poll" st in
      let st := hand_over (core_set_input_state s) "retro_set_input_state" st in
      let st :=
        match core_get_system_info s with
        | Some info => with_system_info info (log (EvCall "retro_get_system_info") st)
        | None => st
        end in
      let nbytes := size_mul (size_mul MAX_AUDIO_FRAMES 2) sizeof_int16 in
      let st := log (EvMalloc AudioStorage nbytes) st in
      let st := with_audio_buffer (malloc_int16 os nbytes) st in
      (true, st)
  end.

Definition libretro_is_loaded (st : host) : bool := non_null (core_handle st).

(** ** Core info *)

Definition libretro_get_name (st : host) : string :=
  default EmptyString (library_name (system_info st)).

Definition libretro_get_version (st : host) : string :=
  default EmptyString (library_version (system_info st)).

Definition libretro_get_extensions (st : host) : string :=
  default EmptyString (valid_extensions (system_info st)).

(** ** Game management (second part) *)

(** The [retro_game_info] handed to the core: the file's bytes are read unless
    the core asked for the path only. *)
Definition read_content (os : platform) (file : string) (st : host) : retro_game_info * host :=
  let game := {| path := file; data := None; size := 0; meta := None |} in
  if need_fullpath (system_info st) then (game, st)
  else match read_file os file with
       | Some bytes =>
         let n := Z.of_nat (length bytes) in
         let st := log (EvMalloc ContentStorage n) st in
         if malloc_ok os n
         then ({| path := file; data := Some bytes; size := n; meta := None |}, st)
         else ({| path := file; data := None; size := n; meta := None |}, st)
       | None => (game, st)
       end.

Definition libretro_load_game (os : platform) (file : string) (st : host) : bool * host :=
  match core_handle st, core_load_game (syms st) with
  | Some _, Some load =>
    let game := (read_content os file st).1 in
    let st := (read_content os file st).2 in
    let st := log (EvCall "retro_load_game") st in
    let result := (load game).1 in
    let st := core_calls_back os true (load game).2 st in
    let st := if non_null (data game) then log (EvFree ContentStorage true) st else st in
    if result then
      let st := with_game_loaded true st in
      let st :=
        match core_get_system_av_info (syms st) with
        | Some av_info =>
          let st := log (EvCall "retro_get_system_av_info") st in
          let st := with_video_width (base_width (geometry av_info)) st in
          let st := with_video_height (base_height (geometry av_info)) st in
          let st := with_video_fps (fps (timing av_info)) st in
          with_audio_sample_rate (sample_rate (timing av_info)) st
        | None => st
        end in
      let st :=
        if bound (core_set_controller_port_device (syms st)) then
          log (EvCall "retro_set_controller_port_device")
            (log (EvCall "retro_set_controller_port_device") st)
        else st in
      (true, st)
    else (false, st)
  | _, _ => (false, st)
  end.

(** ** Emulation control *)

Definition libretro_run_frame (os : platform) (st : host) : host :=
  match core_handle st, core_run (syms st) with
  | Some _, Some script =>
    if game_loaded st then
      let st := with_audio_frames 0 st in
      core_calls_back os true script (log (EvCall "retro_run") st)
    else st
  | _, _ => st
  end.

Definition libretro_reset (st : host) : host :=
  if non_null (core_handle st) && bound (core_reset (syms st)) && game_loaded st
  then log (EvCall "retro_reset") st
  else st.

(** ** Video *)

Definition libretro_get_width (st : host) : Z := video_width st.
Definition libretro_get_height (st : host) : Z := video_height st.
Definition libretro_get_fps (st : host) : float := video_fps st.
Definition libretro_get_pixel_format (st : host) : Z := pixel_format st.
Definition libretro_get_framebuffer (st : host) : option (list byte) := framebuffer st.
Definition libretro_get_framebuffer_pitch (st : host) : Z := video_pitch st.

(** ** Audio *)

Definition libretro_get_sample_rate (st : host) : float := audio_sample_rate st.
Definition libretro_get_audio_buffer (st : host) : option (list Z) := audio_buffer st.
Definition libretro_get_audio_frames (st : host) : Z := audio_frames st.
Definition libretro_clear_audio_buffer (st : host) : host := with_audio_frames 0 st.

(** ** Input *)

Definition libretro_set_button (port button : Z) (pressed : bool) (st : host) : host :=
  if (port <? MAX_PORTS) && (button <? MAX_BUTTONS) then
    with_input_state
      (alter (fun row => <[Z.to_nat button := pressed]> row) (Z.to_nat port) (input_state st)) st
  else st.

Definition libretro_clear_input (st : host) : host :=
  with_input_state (replicate (Z.to_nat MAX_PORTS) (replicate (Z.to_nat MAX_BUTTONS) false)) st.

(** ** Save states *)

Definition libretro_get_save_state_size (st : host) : Z * host :=
  match core_handle st, core_serialize_size (syms st) with
  | Some _, Some n => (n, log (EvCall "retro_serialize_size") st)
  | _, _ => (0, st)
  end.

Definition libretro_save_state (st : host) : bool * host :=
  match core_handle st, core_serialize (syms st) with
  | Some _, Some ok =>
    if game_loaded st then (ok, log (EvCall "retro_serialize") st) else (false, st)
  | _, _ => (false, st)
  end.

Definition libretro_load_state (st : host) : bool * host :=
  match core_handle st, core_unserialize (syms st) with
  | Some _, Some ok =>
    if game_loaded st then (ok, log (EvCall "retro_unserialize") st) else (false, st)
  | _, _ => (false, st)
  end.

(** ** SRAM *)

Definition libretro_get_sram (st : host) : option (list byte) * host :=
  match core_handle st, core_get_memory_data (syms st) with
  | Some _, Some region => (region, log (EvCall "retro_get_memory_data") st)
  | _, _ => (None, st)
  end.

Definition libretro_get_sram_size (st : host) : Z * host :=
  match core_handle st, core_get_memory_size (syms st) with
  | Some _, Some n => (n, log (EvCall "retro_get_memory_size") st)
  | _, _ => (0, st)
  end.

(** ** Paths *)

(** strncpy(dir, path, sizeof dir - 1) into a zero-initialised array: the
    stored string is the first 4095 characters of a non-null [path].
    (A shorter [path] written over a longer one: strncpy pads with zeros.) *)
Definition libretro_set_system_directory (dir : option string) (st : host) : host :=
  match dir with
  | Some d => with_system_directory (substring 0 (Z.to_nat (DIRECTORY_SIZE - 1)) d) st
  | None => st
  end.

Definition libretro_set_save_directory (dir : option string) (st : host) : host :=
  match dir with
  | Some d => with_save_directory (substring 0 (Z.to_nat (DIRECTORY_SIZE - 1)) d) st
  | None => st
  end.

(** ** Initialization *)

Definition libretro_init (st : host) : host :=
  with_pixel_format RETRO_PIXEL_FORMAT_XRGB8888 (libretro_clear_input st).

Definition libretro_deinit (st : host) : host :=
  if non_null (core_handle st) then libretro_unload_core st else st.

(** ** Video with output parameters, input alias *)

Definition libretro_get_framebuffer_ex (st : host) : option (list byte) * (Z * Z * Z) :=
  (framebuffer st, (video_width st, video_height st, video_pitch st)).

(** [(unsigned)button]: an [int] converted to [unsigned], 32 bits wide. *)
Definition libretro_set_input (port button : Z) (pressed : bool) (st : host) : host :=
  libretro_set_button port (button mod 4294967296) pressed st.

(** ** The lifecycle, read off the statics *)

Inductive lifecycle : Type := Unloaded | CoreLoaded | GameLoaded.

Definition lifecycle_of (st : host) : lifecycle :=
  match core_handle st with
  | None => Unloaded
  | Some _ => if game_loaded st then GameLoaded else CoreLoaded
  end.

(** The spec's lifecycle invariant: a loaded game implies a loaded core. *)
Definition lifecycle_inv (st : host) : Prop :=
  game_loaded st = true -> core_handle st <> None.

(** ** The host-facing surface as a transition system *)

Inductive host_call : Type :=
  | CallInit
  | CallDeinit
  | CallLoadCore (file : string)
  | CallUnloadCore
  | CallLoadGame (file : string)
  | CallUnloadGame
  | CallRunFrame
  | CallReset
  | CallClearAudioBuffer
  | CallSetButton (port button : Z) (pressed : bool)
  | CallSetInput (port button : Z) (pressed : bool)
  | CallClearInput
  | CallGetSaveStateSize
  | CallSaveState
  | CallLoadState
  | CallGetSram
  | CallGetSramSize
  | CallSetSystemDirectory (dir : option string)
  | CallSetSaveDirectory (dir : option string).

Definition step (os : platform) (c : host_call) (st : host) : host :=
  match c with
  | CallInit => libretro_init st
  | CallDeinit => libretro_deinit st
  | CallLoadCore file => (libretro_load_core os file st).2
  | CallUnloadCore => libretro_unload_core st
  | CallLoadGame file => (libretro_load_game os file st).2
  | CallUnloadGame => libretro_unload_game st
  | CallRunFrame => libretro_run_frame os st
  | CallReset => libretro_reset st
  | CallClearAudioBuffer => libretro_clear_audio_buffer st
  | CallSetButton port button pressed => libretro_set_button port button pressed st
  | CallSetInput port button pressed => libretro_set_input port button pressed st
  | CallClearInput => libretro_clear_input st
  | CallGetSaveStateSize => (libretro_get_save_state_size st).2
  | CallSaveState => (libretro_save_state st).2
  | CallLoadState => (libretro_load_state st).2
  | CallGetSram => (libretro_get_sram st).2
  | CallGetSramSize => (libretro_get_sram_size st).2
  | CallSetSystemDirectory dir => libretro_set_system_directory dir st
  | CallSetSaveDirectory dir => libretro_set_save_directory dir st
  end.

(** Which of the 21 pointers are non-null. *)
Definition exports (s : core_symbols) : list bool :=
  [ bound (core_set_environment s); bound (core_set_video_refresh s);
    bound (core_set_audio_sample s); bound (core_set_audio_sample_batch s);
    bound (core_set_input_poll s); bound (core_set_input_state s);
    bound (core_init s); bound (core_deinit s); bound (core_api_version s);
    bound (core_get_system_info s); bound (core_get_system_av_info s);
    bound (core_set_controller_port_device s); bound (core_reset s);
    bound (core_run s); bound (core_serialize_size s); bound (core_serialize s);
    bound (core_unserialize s); bound (core_load_game s); bound (core_unload_game s);
    bound (core_get_memory_data s); bound (core_get_memory_size s) ].

(** The states a host can be in: the initial statics, closed under the calls
    of the host-facing surface, on any platform.  Between two calls the core's
    own state moves on, so what an entry point does at its next call may
    change; which entry points exist does not. *)
Inductive reachable : host -> Prop :=
  | reachable_initial : reachable initial_host
  | reachable_step os c st : reachable st -> reachable (step os c st)
  | reachable_core_moves s st :
      reachable st -> exports s = exports (syms st) -> reachable (with_syms s st).

(** ** Invariants of the storage *)

(** The audio queue never holds more than its capacity, and its buffer, when
    allocated, has room for the capacity in stereo. *)
Definition audio_inv (st : host) : Prop :=
  0 <= audio_frames st <= MAX_AUDIO_FRAMES /\
  match audio_buffer st with
  | Some buf => Z.of_nat (length buf) = 2 * MAX_AUDIO_FRAMES
  | None => True
  end.

(** An unloaded host holds neither buffer. *)
Definition storage_inv (st : host) : Prop :=
  match core_handle st with
  | None => audio_buffer st = None /\ framebuffer st = None
  | Some _ => True
  end.

Definition host_inv (st : host) : Prop := audio_inv st /\ storage_inv st.

(** No callback touches the handle, the game flag or the bound symbols. *)
Definition same_core (st st' : host) : Prop :=
  core_handle st' = core_handle st /\
  game_loaded st' = game_loaded st /\
  syms st' = syms st.

(** The four mandatory entry points of [libretro_load_core]. *)
Definition mandatory_bound (s : core_symbols) : bool :=
  bound (core_init s) && bound (core_deinit s) && bound (core_run s) && bound (core_load_game s).

(** ** Sequences of audio callbacks *)

(** Interleaved stereo: the cells a list of (left, right) pairs occupies. *)
Definition interleave (pairs : list (Z * Z)) : list Z :=
  flat_map (fun p => [p.1; p.2]) pairs.

(** The single-sample callback called once per pair, in order. *)
Definition push_samples (pairs : list (Z * Z)) (st : host) : host :=
  foldl (fun st p => audio_sample_callback p.1 p.2 st) st pairs.

(** ** Stub cores and a stub platform

    Concrete cores to run the host against, in the manner of the spec's
    "stub module": one exporting all 21 entry points, one without the
    optional [retro_unload_game], one without the mandatory [retro_run]. *)

Definition stub_av_info : retro_system_av_info :=
  {| geometry := {| base_width := 320; base_height := 224; max_width := 320;
                    max_height := 224; aspect_ratio := 0%float |};
     timing := {| fps := 59.5%float; sample_rate := 48000%float |} |}.

Definition stub_info : retro_system_info :=
  {| library_name := Some "stub"%string; library_version := Some "1.0"%string;
     valid_extensions := Some "rom"%string; need_fullpath := false; block_extract := false |}.

(** Four rows of two RGB565 pixels, each row padded to a pitch of 8 bytes. *)
Definition stub_frame : list byte :=
  [ x01; x02; x03; x04; x00; x00; x00; x00;
    x05; x06; x07; x08; x00; x00; x00; x00;
    x09; x0a; x0b; x0c; x00; x00; x00; x00;
    x0d; x0e; x0f; x10; x00; x00; x00; x00 ].

Definition stub_symbols : core_symbols :=
  {| core_set_environment := Some tt; core_set_video_refresh := Some tt;
     core_set_audio_sample := Some tt; core_set_audio_sample_batch := Some tt;
     core_set_input_poll := Some tt; core_set_input_state := Some tt;
     core_init := Some [CbEnvironment RETRO_ENVIRONMENT_SET_PIXEL_FORMAT RETRO_PIXEL_FORMAT_RGB565];
     core_deinit := Some tt;
     core_api_version := Some 1;
     core_get_system_info := Some stub_info;
     core_get_system_av_info := Some stub_av_info;
     core_set_controller_port_device := Some tt;
     core_reset := Some tt;
     core_run := Some [CbInputPoll; CbVideoRefresh (Some stub_frame) 2 4 8;
                       CbAudioSampleBatch [10; -10; 20; -20] 2];
     core_serialize_size := Some 1024;
     core_serialize := Some true;
     core_unserialize := Some true;
     core_load_game := Some (fun game => (true, []));
     core_unload_game := Some tt;
     core_get_memory_data := Some None;
     core_get_memory_size := Some 0 |}.

Definition without_unload_game (s : core_symbols) : core_symbols :=
  {| core_set_environment := core_set_environment s;
     core_set_video_refresh := core_set_video_refresh s;
     core_set_audio_sample := core_set_audio_sample s;
     core_set_audio_sample_batch := core_set_audio_sample_batch s;
     core_set_input_poll := core_set_input_poll s;
     core_set_input_state := core_set_input_state s;
     core_init := core_init s; core_deinit := core_deinit s;
     core_api_version := core_api_version s;
     core_get_system_info := core_get_system_info s;
     core_get_system_av_info := core_get_system_av_info s;
     core_set_controller_port_device := core_set_controller_port_device s;
     core_reset := core_reset s; core_run := core_run s;
     core_serialize_size := core_serialize_size s; core_serialize := core_serialize s;
     core_unserialize := core_unserialize s; core_load_game := core_load_game s;
     core_unload_game := None;
     core_get_memory_data := core_get_memory_data s;
     core_get_memory_size := core_get_memory_size s |}.

Definition without_run (s : core_symbols) : core_symbols :=
  {| core_set_environment := core_set_environment s;
     core_set_video_refresh := core_set_video_refresh s;
     core_set_audio_sample := core_set_audio_sample s;
     core_set_audio_sample_batch := core_set_audio_sample_batch s;
     core_set_input_poll := core_set_input_poll s;
     core_set_input_state := core_set_input_state s;
     core_init := core_init s; core_deinit := core_deinit s;
     core_api_version := core_api_version s;
     core_get_system_info := core_get_system_info s;
     core_get_system_av_info := core_get_system_av_info s;
     core_set_controller_port_device := core_set_controller_port_device s;
     core_reset := core_reset s; core_run := None;
     core_serialize_size := core_serialize_size s; core_serialize := core_serialize s;
     core_unserialize := core_unserialize s; core_load_game := core_load_game s;
     core_unload_game := core_unload_game s;
     core_get_memory_data := core_get_memory_data s;
     core_get_memory_size := core_get_memory_size s |}.

(** Three loadable files; every other path fails to open.  Allocation
    succeeds exactly when [memory] says so. *)
Definition stub_platform (memory : bool) : platform :=
  {| dlopen := fun file =>
       if String.eqb file "stub.dylib" then
         Some {| dl_handle := 4096; dl_exports := stub_symbols |}
       else if String.eqb file "no_unload_game.dylib" then
         Some {| dl_handle := 8192; dl_exports := without_unload_game stub_symbols |}
       else if String.eqb file "no_run.dylib" then
         Some {| dl_handle := 12288; dl_exports := without_run stub_symbols |}
       else None;
     malloc_ok := fun _ => memory;
     uninit := fun _ => x00;
     read_file := fun _ => Some [x4e; x45; x53; x1a] |}.

Definition stub_os : platform := stub_platform true.

(** The stub core loaded, and a game loaded into it. *)
Definition stub_core_loaded : host :=
  step stub_os (CallLoadCore "stub.dylib") initial_host.

Definition stub_game_loaded : host :=
  step stub_os (CallLoadGame "game.rom") stub_core_loaded.

(** The same with the core that lacks [retro_unload_game]. *)
Definition no_unload_core_loaded : host :=
  step stub_os (CallLoadCore "no_unload_game.dylib") initial_host.

Definition no_unload_game_loaded : host :=
  step stub_os (CallLoadGame "game.rom") no_unload_core_loaded.

(** ** Well-formed callback arguments *)

(** [data] is an array of [int16_t] holding at least [frames] stereo frames.
    As a C object its size in bytes fits a [size_t]. *)
Definition holds_frames (data : list Z) (frames : Z) : Prop :=
  0 <= frames /\
  2 * frames <= Z.of_nat (length data) /\
  Z.of_nat (length data) * sizeof_int16 < SIZE_MODULUS.

(** The stub core's host with 8142 of the 8192 frames counted as stored, so
    that 50 remain. *)
Definition stub_nearly_full : host := with_audio_frames 8142 stub_core_loaded.

(** ** What a load negotiates *)

(** The pixel format left by the environment commands of a callback script,
    starting from [format]: every set-pixel-format overwrites it. *)
Definition negotiated_format (script : list callback) (format : Z) : Z :=
  foldl (fun format cb =>
           match cb with
           | CbEnvironment cmd payload =>
               if cmd =? RETRO_ENVIRONMENT_SET_PIXEL_FORMAT then payload else format
           | _ => format
           end) format script.

(** The commands [environment_callback] answers with true. *)
Definition acknowledged : list Z :=
  [ RETRO_ENVIRONMENT_GET_LOG_INTERFACE; RETRO_ENVIRONMENT_GET_CAN_DUPE;
    RETRO_ENVIRONMENT_SET_PIXEL_FORMAT; RETRO_ENVIRONMENT_GET_SYSTEM_DIRECTORY;
    RETRO_ENVIRONMENT_GET_SAVE_DIRECTORY; RETRO_ENVIRONMENT_GET_CORE_ASSETS_DIRECTORY;
    RETRO_ENVIRONMENT_SET_SUPPORT_NO_GAME; RETRO_ENVIRONMENT_SET_VARIABLES;
    RETRO_ENVIRONMENT_SET_CORE_OPTIONS_V2; RETRO_ENVIRONMENT_GET_VARIABLE_UPDATE ].

(** ** Shapes the host keeps *)

(** The input matrix has [MAX_PORTS] rows of [MAX_BUTTONS] cells. *)
Definition input_inv (st : host) : Prop :=
  length (input_state st) = Z.to_nat MAX_PORTS /\
  Forall (fun row => length row = Z.to_nat MAX_BUTTONS) (input_state st).

(** The framebuffer, when there is one, has the recorded capacity. *)
Definition frame_inv (st : host) : Prop :=
  match framebuffer st with
  | Some fb => Z.of_nat (length fb) = framebuffer_size st
  | None => True
  end.

(** ** Additional core info *)

(** [libretro_get_system_info]: a copy of the cached structure, unless [info]
    is null. *)
Definition libretro_get_system_info (info : bool) (st : host) : option retro_system_info :=
  if info then Some (system_info st) else None.

(** [libretro_get_system_av_info]: the core's answer while a game is loaded,
    and otherwise the cached values with 320 x 240, 60 fps and 44100 Hz in
    place of anything that is not positive.  [info] says whether the pointer
    is non-null; the result is what is written through it. *)
Definition libretro_get_system_av_info (info : bool) (st : host)
    : option retro_system_av_info * host :=
  if info then
    match core_handle st, core_get_system_av_info (syms st), game_loaded st with
    | Some _, Some av_info, true =>
        (Some av_info, log (EvCall "retro_get_system_av_info") st)
    | _, _, _ =>
        let width := if video_width st =? 0 then 320 else video_width st in
        let height := if video_height st =? 0 then 240 else video_height st in
        (Some {| geometry := {| base_width := width; base_height := height;
                                max_width := width; max_height := height;
                                aspect_ratio := 0%float |};
                 timing := {| fps := if PrimFloat.ltb 0 (video_fps st)
                                     then video_fps st else 60%float;
                              sample_rate := if PrimFloat.ltb 0 (audio_sample_rate st)
                                             then audio_sample_rate st
                                             else 44100%float |} |},
         st)
    end
  else (None, st).

(** ** Files *)

(** The files the host can see, by path. *)
Definition disk : Type := string -> option (list byte).

Definition disk_put (file : string) (content : list byte) (d : disk) : disk :=
  fun f => if String.eqb f file then Some content else d f.

(** What the C library answers during one call: whether fopen(path, "wb")
    succeeds, how many bytes of one write the file takes, how many bytes one
    fread transfers at most, and how many bytes the stream keeps in its own
    buffer.  fwrite counts the bytes it has buffered as written; they reach
    the file when fclose flushes the stream, and are lost when the file does
    not take them. *)
Record stdio := {
  can_create : string -> bool;
  fwrite_limit : Z;
  fread_limit : Z;
  stream_buffer : Z
}.

(** fopen(path, "wb") truncates; fwrite(buffer, 1, size, f) copies the front
    of the buffer into the stream and fclose(f) flushes it.  Returns the
    count fwrite reports, which includes what the stream has only buffered.
    The source never looks at the result of fclose, so it is not returned:
    the file is left with the bytes it took. *)
Definition write_file (io : stdio) (file : string) (buffer : list byte) (size : Z) (d : disk)
    : option (Z * disk) :=
  if can_create io file then
    let stored := Z.min size (fwrite_limit io) in
    let reported := Z.min size (fwrite_limit io + Z.max 0 (stream_buffer io)) in
    Some (reported, disk_put file (take (Z.to_nat stored) buffer) d)
  else None.

(** ** File-based save states *)

(** [image] is what [retro_serialize] leaves in the buffer it is given.  The
    scratch buffer's malloc and free are not traced. *)
Definition libretro_save_state_to_file (os : platform) (io : stdio) (image : list byte)
    (file : string) (d : disk) (st : host) : bool * disk * host :=
  if negb (non_null (core_handle st)) || negb (game_loaded st) then (false, d, st)
  else
    let size := (libretro_get_save_state_size st).1 in
    let st := (libretro_get_save_state_size st).2 in
    if size =? 0 then (false, d, st)
    else match malloc os size with
         | None => (false, d, st)
         | Some buffer =>
           if (libretro_save_state st).1 then
             let st := (libretro_save_state st).2 in
             let buffer := memcpy buffer 0 image (Z.to_nat size) in
             match write_file io file buffer size d with
             | Some (written, d) => (written =? size, d, st)
             | None => (false, d, st)
             end
           else (false, d, (libretro_save_state st).2)
         end.

(** The buffer [libretro_load_state_from_file] hands to [libretro_load_state]:
    the whole file, or nothing when the file cannot be opened, the buffer
    cannot be allocated or the read comes up short. *)
Definition read_state_file (os : platform) (io : stdio) (file : string) (d : disk)
    : option (list byte) :=
  match d file with
  | None => None
  | Some content =>
    let size := Z.of_nat (length content) in
    match malloc os size with
    | None => None
    | Some buffer =>
      if Z.min size (fread_limit io) =? size
      then Some (memcpy buffer 0 content (Z.to_nat size))
      else None
    end
  end.

(** What [libretro_load_state (buffer, size)] passes to [retro_unserialize]:
    its own two arguments, when it makes the call. *)
Definition unserialize_arguments (buffer : list byte) (size : Z) (st : host)
    : option (list byte * Z) :=
  match core_handle st, core_unserialize (syms st), game_loaded st with
  | Some _, Some _, true => Some (buffer, size)
  | _, _, _ => None
  end.

(** [libretro_load_state_from_file]: the result and the host, and with them
    the buffer and size that reach [retro_unserialize], if the call is made.
    The size is the file's length, for which the buffer was allocated. *)
Definition libretro_load_state_from_file (os : platform) (io : stdio)
    (file : string) (d : disk) (st : host) : bool * host * option (list byte * Z) :=
  if negb (non_null (core_handle st)) || negb (game_loaded st) then (false, st, None)
  else match read_state_file os io file d with
       | Some buffer =>
         (libretro_load_state st,
          unserialize_arguments buffer (Z.of_nat (length buffer)) st)
       | None => (false, st, None)
       end.

(** ** SRAM file operations *)

(** The core's save RAM is the core's own memory: writing through the pointer
    changes what [retro_get_memory_data] shows from then on. *)
Definition with_core_memory (region : list byte) (s : core_symbols) : core_symbols :=
  {| core_set_environment := core_set_environment s;
     core_set_video_refresh := core_set_video_refresh s;
     core_set_audio_sample := core_set_audio_sample s;
     core_set_audio_sample_batch := core_set_audio_sample_batch s;
     core_set_input_poll := core_set_input_poll s;
     core_set_input_state := core_set_input_state s;
     core_init := core_init s; core_deinit := core_deinit s;
     core_api_version := core_api_version s;
     core_get_system_info := core_get_system_info s;
     core_get_system_av_info := core_get_system_av_info s;
     core_set_controller_port_device := core_set_controller_port_device s;
     core_reset := core_reset s; core_run := core_run s;
     core_serialize_size := core_serialize_size s; core_serialize := core_serialize s;
     core_unserialize := core_unserialize s; core_load_game := core_load_game s;
     core_unload_game := core_unload_game s;
     core_get_memory_data := Some (Some region);
     core_get_memory_size := core_get_memory_size s |}.

Definition libretro_save_sram (io : stdio) (file : option string) (d : disk) (st : host)
    : disk * host :=
  let sram := (libretro_get_sram st).1 in
  let st := (libretro_get_sram st).2 in
  let size := (libretro_get_sram_size st).1 in
  let st := (libretro_get_sram_size st).2 in
  match sram, file with
  | Some region, Some f =>
    if 0 <? size then
      match write_file io f region size d with
      | Some (_, d) => (d, st)
      | None => (d, st)
      end
    else (d, st)
  | _, _ => (d, st)
  end.

(** fread(sram, 1, size, f): as many bytes as the file, [size] and the read
    allow, written over the front of the core's memory. *)
Definition libretro_load_sram (io : stdio) (file : option string) (d : disk) (st : host)
    : host :=
  let sram := (libretro_get_sram st).1 in
  let st := (libretro_get_sram st).2 in
  let size := (libretro_get_sram_size st).1 in
  let st := (libretro_get_sram_size st).2 in
  match sram, file with
  | Some region, Some f =>
    if 0 <? size then
      match d f with
      | Some content =>
        let got := Z.min (Z.min size (Z.of_nat (length content))) (fread_limit io) in
        with_syms (with_core_memory (memcpy region 0 content (Z.to_nat got)) (syms st)) st
      | None => st
      end
    else st
  | _, _ => st
  end.

(** ** Reading the trace *)

(** [if (f) f(...)] as it shows in the trace. *)
Definition call_if {B : Type} (f : fnptr B) (entry : string) : list event :=
  if bound f then [EvCall entry] else [].


(** Both shapes together. *)
Definition shape_inv (st : host) : Prop := frame_inv st /\ input_inv st.


(** Frees of the content buffer of [libretro_load_game] in a trace. *)
Definition is_content_free (e : event) : bool :=
  match e with
  | EvFree ContentStorage _ => true
  | _ => false
  end.

Definition content_frees (t : list event) : nat := length (List.filter is_content_free t).

(** ** A stub C library and a core with battery memory *)

Definition stub_stdio : stdio :=
  {| can_create := fun _ => true; fwrite_limit := 65536; fread_limit := 65536;
     stream_buffer := 4096 |}.

(** The same on a file that takes 512 bytes and no more. *)
Definition full_disk_stdio : stdio :=
  {| can_create := fun _ => true; fwrite_limit := 512; fread_limit := 65536;
     stream_buffer := 4096 |}.

Definition empty_disk : disk := fun _ => None.


(** * Properties *)

(** ** Machine arithmetic in range *)

Lemma size_add_small a b : 0 <= a + b < SIZE_MODULUS -> size_add a b = a + b.
Proof. intros H. unfold size_add. by rewrite Z.mod_small. Qed.

Lemma size_sub_small a b : 0 <= a - b < SIZE_MODULUS -> size_sub a b = a - b.
Proof. intros H. unfold size_sub. by rewrite Z.mod_small. Qed.

Lemma size_mul_small a b : 0 <= a * b < SIZE_MODULUS -> size_mul a b = a * b.
Proof. intros H. unfold size_mul. by rewrite Z.mod_small. Qed.

Lemma size_add_range a b : 0 <= size_add a b < SIZE_MODULUS.
Proof. unfold size_add. apply Z.mod_pos_bound. reflexivity. Qed.

Lemma size_mul_range a b : 0 <= size_mul a b < SIZE_MODULUS.
Proof. unfold size_mul. apply Z.mod_pos_bound. reflexivity. Qed.

(** ** The environment negotiator *)

(** C8: for every integer code, the set-pixel-format command records the code
    as it is, answers true to the core, and the pixel-format getter returns
    the code afterwards; the same holds when the command arrives through the
    callback dispatcher. *)
Theorem set_pixel_format_unvalidated (os : platform) (code : Z) (st : host) :
  (environment_callback RETRO_ENVIRONMENT_SET_PIXEL_FORMAT code st).1.1 = true /\
  libretro_get_pixel_format
    (environment_callback RETRO_ENVIRONMENT_SET_PIXEL_FORMAT code st).2 = code /\
  libretro_get_pixel_format
    (dispatch os (CbEnvironment RETRO_ENVIRONMENT_SET_PIXEL_FORMAT code) st) = code.
Proof. repeat split. Qed.

(** An unrecognised code, 99, read back through the getter. *)
Example set_pixel_format_99 :
  libretro_get_pixel_format
    (environment_callback RETRO_ENVIRONMENT_SET_PIXEL_FORMAT 99 initial_host).2 = 99.
Proof. reflexivity. Qed.

(** ** The audio bridge without a buffer *)

(** C10: while the audio buffer is null (never allocated, or released by an
    unload), the batch callback returns 0 and the single-sample callback
    stores nothing; both leave the whole host state, the frame count
    included, as it was. *)
Theorem audio_callbacks_without_buffer (st : host) (data : list Z) (frames left right : Z) :
  audio_buffer st = None ->
  audio_sample_batch_callback data frames st = (0, st) /\
  audio_sample_callback left right st = st /\
  libretro_get_audio_frames (audio_sample_batch_callback data frames st).2
    = libretro_get_audio_frames st /\
  libretro_get_audio_frames (audio_sample_callback left right st)
    = libretro_get_audio_frames st.
Proof.
  intros Hnull. unfold audio_sample_batch_callback, audio_sample_callback.
  rewrite Hnull. repeat split.
Qed.

Lemma audio_callbacks_without_buffer_witness :
  audio_sample_batch_callback [1; 2; 3; 4] 2 initial_host = (0, initial_host) /\
  audio_sample_callback 5 6 initial_host = initial_host /\
  libretro_get_audio_frames (audio_sample_batch_callback [1; 2; 3; 4] 2 initial_host).2
    = libretro_get_audio_frames initial_host /\
  libretro_get_audio_frames (audio_sample_callback 5 6 initial_host)
    = libretro_get_audio_frames initial_host.
Proof. apply (audio_callbacks_without_buffer initial_host [1; 2; 3; 4] 2 5 6). reflexivity. Defined.

(** ** Unloading the core *)

(** [libretro_unload_game] writes [game_loaded] and nothing else (besides the
    trace). *)
Lemma unload_game_frame (st : host) :
  core_handle (libretro_unload_game st) = core_handle st /\
  syms (libretro_unload_game st) = syms st /\
  framebuffer (libretro_unload_game st) = framebuffer st /\
  audio_buffer (libretro_unload_game st) = audio_buffer st /\
  audio_frames (libretro_unload_game st) = audio_frames st /\
  video_width (libretro_unload_game st) = video_width st /\
  video_height (libretro_unload_game st) = video_height st /\
  video_pitch (libretro_unload_game st) = video_pitch st /\
  video_fps (libretro_unload_game st) = video_fps st /\
  audio_sample_rate (libretro_unload_game st) = audio_sample_rate st.
Proof.
  unfold libretro_unload_game.
  by destruct (non_null (core_handle st) && bound (core_unload_game (syms st)) && game_loaded st).
Qed.

(** C9: [libretro_unload_core] releases the framebuffer, so the framebuffer
    accessor returns null afterwards, and writes none of the cached geometry
    and timing: the width, height, pitch, fps and sample-rate getters return
    what they returned before the unload. *)
Theorem unload_core_keeps_geometry (st : host) :
  libretro_get_framebuffer (libretro_unload_core st) = None /\
  libretro_get_width (libretro_unload_core st) = libretro_get_width st /\
  libretro_get_height (libretro_unload_core st) = libretro_get_height st /\
  libretro_get_framebuffer_pitch (libretro_unload_core st) = libretro_get_framebuffer_pitch st /\
  libretro_get_fps (libretro_unload_core st) = libretro_get_fps st /\
  libretro_get_sample_rate (libretro_unload_core st) = libretro_get_sample_rate st.
Proof.
  unfold libretro_unload_core.
  assert (Hpre : video_width (if game_loaded st then libretro_unload_game st else st)
                   = video_width st /\
                 video_height (if game_loaded st then libretro_unload_game st else st)
                   = video_height st /\
                 video_pitch (if game_loaded st then libretro_unload_game st else st)
                   = video_pitch st /\
                 video_fps (if game_loaded st then libretro_unload_game st else st)
                   = video_fps st /\
                 audio_sample_rate (if game_loaded st then libretro_unload_game st else st)
                   = audio_sample_rate st).
  { destruct (game_loaded st); [|done].
    pose proof (unload_game_frame st) as Hf. tauto. }
  destruct Hpre as (Hw & Hh & Hp & Hf & Hr).
  generalize dependent (if game_loaded st then libretro_unload_game st else st).
  intros st1 Hw Hh Hp Hf Hr.
  unfold libretro_get_framebuffer, libretro_get_width, libretro_get_height,
    libretro_get_framebuffer_pitch, libretro_get_fps, libretro_get_sample_rate.
  rewrite <- Hw, <- Hh, <- Hp, <- Hf, <- Hr.
  destruct (core_handle st1) as [h|]; [destruct (bound (core_deinit (syms st1)))|];
    repeat split.
Qed.

(** ** The audio bridge: single samples *)

Lemma length_interleave (pairs : list (Z * Z)) :
  length (interleave pairs) = (2 * length pairs)%nat.
Proof.
  induction pairs as [|p ps IH]; [done|].
  change (interleave (p :: ps)) with (p.1 :: p.2 :: interleave ps).
  cbn [length]. rewrite IH. lia.
Qed.

(** Two adjacent cells written behind a prefix. *)
Lemma insert_pair_after {A : Type} (pre rest : list A) (x y : A) :
  (2 <= length rest)%nat ->
  <[S (length pre) := y]> (<[length pre := x]> (pre ++ rest)) = (pre ++ [x; y]) ++ drop 2 rest.
Proof.
  intros Hlen. destruct rest as [|a [|b rest]]; cbn in Hlen; try lia.
  rewrite insert_app_r_alt by lia. rewrite Nat.sub_diag. cbn.
  rewrite insert_app_r_alt by lia.
  replace (S (length pre) - length pre)%nat with 1%nat by lia. cbn.
  by rewrite <- app_assoc.
Qed.

(** One call below capacity: the pair lands in cells [2c] and [2c+1] and the
    count goes up by one. *)
Lemma audio_sample_callback_stores (left right : Z) (st : host) (buf : list Z) :
  audio_buffer st = Some buf ->
  0 <= audio_frames st < MAX_AUDIO_FRAMES ->
  audio_sample_callback left right st =
    with_audio_frames (audio_frames st + 1)
      (with_audio_buffer
         (Some (<[Z.to_nat (2 * audio_frames st + 1) := right]>
                  (<[Z.to_nat (2 * audio_frames st) := left]> buf))) st).
Proof.
  intros Hbuf Hc. unfold audio_sample_callback. rewrite Hbuf.
  destruct (Z.ltb_spec (audio_frames st) MAX_AUDIO_FRAMES) as [_|?]; [|lia].
  unfold MAX_AUDIO_FRAMES in Hc.
  rewrite (size_mul_small (audio_frames st) 2) by (unfold SIZE_MODULUS; lia).
  rewrite !size_add_small by (unfold SIZE_MODULUS; lia).
  by rewrite (Z.mul_comm (audio_frames st) 2).
Qed.

(** One call at capacity: the pair is dropped. *)
Lemma audio_sample_callback_drops (left right : Z) (st : host) :
  MAX_AUDIO_FRAMES <= audio_frames st -> audio_sample_callback left right st = st.
Proof.
  intros Hc. unfold audio_sample_callback.
  destruct (audio_buffer st); [|done].
  by destruct (Z.ltb_spec (audio_frames st) MAX_AUDIO_FRAMES) as [?|_]; [lia|].
Qed.

(** The queue after any number of single-sample calls, from any fill level:
    the cells before the fill level are untouched, the pairs that fit follow,
    the rest of the buffer is untouched. *)
Lemma push_samples_spec (pairs : list (Z * Z)) :
  forall (st : host) (pre rest : list Z),
    audio_buffer st = Some (pre ++ rest) ->
    Z.of_nat (length pre) = 2 * audio_frames st ->
    Z.of_nat (length (pre ++ rest)) = 2 * MAX_AUDIO_FRAMES ->
    0 <= audio_frames st <= MAX_AUDIO_FRAMES ->
    let k := Z.min (Z.of_nat (length pairs)) (MAX_AUDIO_FRAMES - audio_frames st) in
    audio_frames (push_samples pairs st) = audio_frames st + k /\
    audio_buffer (push_samples pairs st) =
      Some (pre ++ interleave (take (Z.to_nat k) pairs) ++ drop (Z.to_nat (2 * k)) rest).
Proof.
  induction pairs as [|[l r] ps IH]; intros st pre rest Hbuf Hpre Hlen Hc k.
  - subst k. cbn [length push_samples foldl]. rewrite Z.min_l by (cbn; lia).
    cbn. split; [lia | by rewrite Hbuf].
  - cbn [push_samples foldl]. fold (push_samples ps (audio_sample_callback (l, r).1 (l, r).2 st)).
    cbn [fst snd].
    destruct (Z.eq_dec (audio_frames st) MAX_AUDIO_FRAMES) as [Hfull|Hroom].
    + rewrite audio_sample_callback_drops by lia.
      destruct (IH st pre rest Hbuf Hpre Hlen Hc) as [IHc IHb].
      subst k. rewrite Z.min_r in IHc, IHb by lia. rewrite Z.min_r by lia.
      rewrite Hfull in *. replace (MAX_AUDIO_FRAMES - MAX_AUDIO_FRAMES) with 0 in * by lia.
      split; [exact IHc | exact IHb].
    + rewrite (audio_sample_callback_stores l r st (pre ++ rest)) by (done || lia).
      rewrite length_app in Hlen.
      replace (Z.to_nat (2 * audio_frames st)) with (length pre) by lia.
      replace (Z.to_nat (2 * audio_frames st + 1)) with (S (length pre)) by lia.
      rewrite insert_pair_after by lia.
      set (st1 := with_audio_frames _ _).
      destruct (IH st1 (pre ++ [l; r]) (drop 2 rest)) as [IHc IHb].
      * reflexivity.
      * subst st1. cbn. rewrite length_app. cbn. lia.
      * rewrite !length_app, length_drop. cbn [length]. lia.
      * subst st1. cbn. lia.
      * subst st1 k. cbn [audio_frames with_audio_frames] in IHc, IHb.
        cbn [length]. rewrite IHc, IHb.
        assert (Hk : Z.min (Z.of_nat (S (length ps))) (MAX_AUDIO_FRAMES - audio_frames st)
                     = 1 + Z.min (Z.of_nat (length ps))
                                 (MAX_AUDIO_FRAMES - (audio_frames st + 1))) by lia.
        rewrite Hk. split; [lia|].
        set (k' := Z.min _ _).
        assert (0 <= k') by (subst k'; lia).
        replace (Z.to_nat (1 + k')) with (S (Z.to_nat k')) by lia.
        replace (Z.to_nat (2 * (1 + k'))) with (Z.to_nat (2 * k') + 2)%nat by lia.
        cbn [take interleave flat_map fst snd app].
        rewrite <- app_assoc. cbn [app]. by rewrite drop_drop, (Nat.add_comm 2).
Qed.

(** C6: with the audio buffer allocated, one single-sample call appends its
    pair (cells [2c] and [2c+1], count up by one) exactly when the count [c]
    is below 8192, and otherwise changes nothing; so [n] calls on an empty
    queue leave [min n 8192] frames, the pairs that fit, in order, and 8200
    calls leave 8192. *)
Theorem audio_sample_saturates (st : host) (buf : list Z) :
  audio_buffer st = Some buf ->
  audio_inv st ->
  (forall l r, audio_frames st < MAX_AUDIO_FRAMES ->
     libretro_get_audio_frames (audio_sample_callback l r st) = audio_frames st + 1 /\
     libretro_get_audio_buffer (audio_sample_callback l r st) =
       Some (<[Z.to_nat (2 * audio_frames st + 1) := r]>
               (<[Z.to_nat (2 * audio_frames st) := l]> buf))) /\
  (forall l r, MAX_AUDIO_FRAMES <= audio_frames st -> audio_sample_callback l r st = st) /\
  (forall pairs, audio_frames st = 0 ->
     libretro_get_audio_frames (push_samples pairs st)
       = Z.min (Z.of_nat (length pairs)) 8192 /\
     libretro_get_audio_buffer (push_samples pairs st)
       = Some (interleave (take (Z.to_nat 8192) pairs)
               ++ drop (Z.to_nat (2 * Z.min (Z.of_nat (length pairs)) 8192)) buf)) /\
  (forall pairs, audio_frames st = 0 -> Z.of_nat (length pairs) = 8200 ->
     libretro_get_audio_frames (push_samples pairs st) = 8192).
Proof.
  intros Hbuf [Hc Hlen]. rewrite Hbuf in Hlen.
  assert (Hfold : forall pairs, audio_frames st = 0 ->
     libretro_get_audio_frames (push_samples pairs st)
       = Z.min (Z.of_nat (length pairs)) 8192 /\
     libretro_get_audio_buffer (push_samples pairs st)
       = Some (interleave (take (Z.to_nat 8192) pairs)
               ++ drop (Z.to_nat (2 * Z.min (Z.of_nat (length pairs)) 8192)) buf)).
  { intros pairs Hempty.
    destruct (push_samples_spec pairs st [] buf Hbuf) as [Hn Hb].
    - cbn. lia.
    - exact Hlen.
    - exact Hc.
    - rewrite Hempty in Hn, Hb. unfold MAX_AUDIO_FRAMES in Hn, Hb.
      rewrite Z.sub_0_r in Hn, Hb.
      unfold libretro_get_audio_frames, libretro_get_audio_buffer.
      rewrite Hn, Hb. split; [lia|]. cbn [app]. do 3 f_equal.
      destruct (Z.le_gt_cases (Z.of_nat (length pairs)) 8192) as [Hfew|Hmany].
      + rewrite Z.min_l by lia. rewrite !take_ge by lia. done.
      + rewrite Z.min_r by lia. done. }
  split; [|split; [|split]].
  - intros l r Hroom.
    rewrite (audio_sample_callback_stores l r st buf Hbuf) by lia. by split.
  - intros l r Hfull. by apply audio_sample_callback_drops.
  - exact Hfold.
  - intros pairs Hempty Hn. destruct (Hfold pairs Hempty) as [-> _]. lia.
Qed.

(** 8200 single-sample calls on the freshly loaded stub core. *)
Lemma audio_sample_saturates_witness :
  libretro_get_audio_frames
    (push_samples (replicate (Z.to_nat 8200) (7, -7)) stub_core_loaded) = 8192.
Proof.
  assert (Hbuf : audio_buffer stub_core_loaded = Some (replicate (Z.to_nat 16384) 0))
    by (vm_compute; reflexivity).
  assert (Hinv : audio_inv stub_core_loaded)
    by (split; [split; vm_compute; discriminate | vm_compute; reflexivity]).
  apply (audio_sample_saturates stub_core_loaded (replicate (Z.to_nat 16384) 0) Hbuf Hinv).
  - vm_compute; reflexivity.
  - vm_compute; reflexivity.
Defined.

(** ** The audio bridge: batches *)

(** A block copied into the middle of a buffer. *)
Lemma list_inserts_middle {A : Type} (l k : list A) (i : nat) :
  (i + length k <= length l)%nat ->
  list_inserts i k l = take i l ++ k ++ drop (i + length k) l.
Proof.
  intros Hfit.
  rewrite <- (take_drop i l) at 1.
  replace i with (length (take i l) + 0)%nat at 1 by (rewrite length_take; lia).
  rewrite list_inserts_app_r. f_equal.
  rewrite <- (take_drop (length k) (drop i l)) at 1.
  rewrite list_inserts_0_r by (rewrite length_take, length_drop; lia).
  by rewrite drop_drop.
Qed.

(** C5: with the audio buffer allocated and [c] frames stored, a batch call
    offering [n] frames takes [min n (8192 - c)] of them: it returns that
    number, raises the count by it, and copies that many frames from the
    front of the data to cell [2c] onwards, leaving every other cell alone. *)
Theorem audio_batch_accepts (data : list Z) (frames : Z) (st : host) (buf : list Z) :
  audio_buffer st = Some buf ->
  audio_inv st ->
  holds_frames data frames ->
  (audio_sample_batch_callback data frames st).1
    = Z.min frames (MAX_AUDIO_FRAMES - audio_frames st) /\
  libretro_get_audio_frames (audio_sample_batch_callback data frames st).2
    = audio_frames st + Z.min frames (MAX_AUDIO_FRAMES - audio_frames st) /\
  libretro_get_audio_buffer (audio_sample_batch_callback data frames st).2
    = Some (take (Z.to_nat (2 * audio_frames st)) buf
            ++ take (Z.to_nat (2 * Z.min frames (MAX_AUDIO_FRAMES - audio_frames st))) data
            ++ drop (Z.to_nat (2 * audio_frames st
                               + 2 * Z.min frames (MAX_AUDIO_FRAMES - audio_frames st))) buf).
Proof.
  intros Hbuf [Hc Hlen] (Hpos & Hfit & Hobj). rewrite Hbuf in Hlen.
  unfold audio_sample_batch_callback, libretro_get_audio_frames, libretro_get_audio_buffer.
  rewrite Hbuf.
  unfold MAX_AUDIO_FRAMES, sizeof_int16, SIZE_MODULUS in *.
  rewrite (size_add_small (audio_frames st) frames) by (unfold SIZE_MODULUS; lia).
  set (k := Z.min frames (8192 - audio_frames st)).
  assert (Hk : (if 8192 <? audio_frames st + frames
                then size_sub 8192 (audio_frames st) else frames) = k).
  { destruct (Z.ltb_spec 8192 (audio_frames st + frames)).
    - rewrite size_sub_small by (unfold SIZE_MODULUS; lia). subst k. lia.
    - subst k. lia. }
  rewrite Hk. assert (0 <= k <= 8192) by (subst k; lia).
  destruct (Z.ltb_spec 0 k) as [Hsome|Hnone].
  - cbn [fst snd audio_frames audio_buffer with_audio_frames with_audio_buffer].
    rewrite (size_add_small (audio_frames st) k) by (unfold SIZE_MODULUS; lia).
    rewrite (size_mul_small k 2) by (unfold SIZE_MODULUS; lia).
    rewrite (size_mul_small (k * 2) 2) by (unfold SIZE_MODULUS; lia).
    rewrite (size_mul_small (audio_frames st) 2) by (unfold SIZE_MODULUS; lia).
    replace (k * 2 * 2 / 2) with (2 * k) by (rewrite Z.div_mul; lia).
    repeat split. unfold memcpy.
    assert (Hsrc : length (take (Z.to_nat (2 * k)) data) = Z.to_nat (2 * k))
      by (rewrite length_take; subst k; lia).
    rewrite list_inserts_middle by (rewrite Hsrc; lia).
    rewrite Hsrc. do 4 f_equal; lia.
  - assert (k = 0) as -> by lia. cbn [fst snd]. repeat split; [lia|].
    rewrite Hbuf. replace (2 * 0) with 0 by lia. rewrite Z.add_0_r.
    change (Z.to_nat 0) with 0%nat. rewrite take_0, app_nil_l. by rewrite take_drop.
Qed.

(** A batch of 100 frames offered when 50 remain: 50 are taken. *)
Lemma audio_batch_accepts_witness :
  (audio_sample_batch_callback (replicate (Z.to_nat 200) 3) 100 stub_nearly_full).1 = 50 /\
  libretro_get_audio_frames
    (audio_sample_batch_callback (replicate (Z.to_nat 200) 3) 100 stub_nearly_full).2 = 8192.
Proof.
  assert (Hinv : audio_inv stub_nearly_full)
    by (split; [split; vm_compute; discriminate | vm_compute; reflexivity]).
  assert (Hdata : holds_frames (replicate (Z.to_nat 200) 3) 100)
    by (repeat split; vm_compute; (discriminate || reflexivity)).
  destruct (audio_batch_accepts (replicate (Z.to_nat 200) 3) 100 stub_nearly_full
              (default [] (audio_buffer stub_nearly_full))
              ltac:(vm_compute; reflexivity) Hinv Hdata) as (Hret & Hcount & _).
  split.
  - rewrite Hret. vm_compute. reflexivity.
  - rewrite Hcount. vm_compute. reflexivity.
Defined.

(** ** The video bridge *)

Lemma length_fresh {A : Type} (content : Z -> A) (cells : nat) (offset : Z) :
  length (fresh content cells offset) = cells.
Proof.
  revert offset. induction cells as [|n IH]; intros offset; [done|].
  cbn. by rewrite IH.
Qed.

(** A copy that fills the destination: the destination becomes the source
    prefix. *)
Lemma memcpy_whole {A : Type} (dst src : list A) (n : nat) :
  length dst = n -> (n <= length src)%nat -> memcpy dst 0 src n = take n src.
Proof.
  intros Hdst Hsrc. unfold memcpy.
  rewrite <- (app_nil_r dst).
  rewrite list_inserts_0_r by (rewrite length_take; lia).
  by rewrite app_nil_r.
Qed.

(** C4, as stated, fails when the allocation is refused: the stub frame
    (4 rows at a pitch of 8, so 32 bytes) is delivered to a host whose
    capacity is 0, the source holds the 32 bytes, and afterwards the host
    holds no framebuffer at all, while its recorded capacity says 32. *)
Lemma video_refresh_allocation_refused :
  framebuffer_size stub_game_loaded < size_mul 4 8 /\
  length stub_frame = Z.to_nat (size_mul 4 8) /\
  libretro_get_framebuffer
    (video_refresh_callback (stub_platform false) (Some stub_frame) 2 4 8 stub_game_loaded)
    = None /\
  framebuffer_size
    (video_refresh_callback (stub_platform false) (Some stub_frame) 2 4 8 stub_game_loaded)
    = 32.
Proof. repeat split; vm_compute; reflexivity. Qed.

(** C4, amended: a frame with non-null data whose [required = height * pitch]
    (in [size_t]) exceeds the capacity makes the callback free the old
    storage, request exactly [required] bytes, and record width, height and
    pitch as given, whatever the allocator answers.  When the request is
    served and the source holds [required] bytes, the framebuffer is exactly
    the first [required] bytes of the source and the capacity is [required].
    When the request is refused, the host holds no framebuffer, so that no
    byte is copied. *)
Theorem video_refresh_grows (os : platform) (src : list byte)
    (width height pitch : Z) (st : host) :
  framebuffer_size st < size_mul height pitch ->
  trace (video_refresh_callback os (Some src) width height pitch st)
    = trace st ++ [EvFree FrameStorage (non_null (framebuffer st));
                   EvMalloc FrameStorage (size_mul height pitch)] /\
  libretro_get_width (video_refresh_callback os (Some src) width height pitch st) = width /\
  libretro_get_height (video_refresh_callback os (Some src) width height pitch st) = height /\
  libretro_get_framebuffer_pitch (video_refresh_callback os (Some src) width height pitch st)
    = pitch /\
  (malloc_ok os (size_mul height pitch) = true ->
   (Z.to_nat (size_mul height pitch) <= length src)%nat ->
   libretro_get_framebuffer (video_refresh_callback os (Some src) width height pitch st)
     = Some (take (Z.to_nat (size_mul height pitch)) src) /\
   length (take (Z.to_nat (size_mul height pitch)) src) = Z.to_nat (size_mul height pitch) /\
   framebuffer_size (video_refresh_callback os (Some src) width height pitch st)
     = size_mul height pitch) /\
  (malloc_ok os (size_mul height pitch) = false ->
   libretro_get_framebuffer (video_refresh_callback os (Some src) width height pitch st)
     = None).
Proof.
  intros Hgrow.
  unfold video_refresh_callback, libretro_get_framebuffer, libretro_get_width,
    libretro_get_height, libretro_get_framebuffer_pitch.
  cbn [framebuffer_size with_video_width with_video_height with_video_pitch].
  destruct (Z.ltb_spec (framebuffer_size st) (size_mul height pitch)) as [_|?]; [|lia].
  unfold malloc.
  destruct (malloc_ok os (size_mul height pitch));
    cbn [framebuffer with_framebuffer with_framebuffer_size].
  - cbn. rewrite <- app_assoc.
    split; [done|]. split; [done|]. split; [done|]. split; [done|].
    split; [|done]. intros _ Hsrc.
    rewrite memcpy_whole by (by rewrite ?length_fresh).
    split; [done|]. split; [|done].
    rewrite length_take. lia.
  - cbn. rewrite <- app_assoc.
    split; [done|]. split; [done|]. split; [done|]. split; [done|].
    split; [done|]. done.
Qed.

(** The stub frame delivered to the stub core's host, by a platform that
    serves the request and by one that refuses it. *)
Lemma video_refresh_grows_witness :
  (libretro_get_framebuffer
     (video_refresh_callback stub_os (Some stub_frame) 2 4 8 stub_game_loaded)
     = Some stub_frame /\
   framebuffer_size
     (video_refresh_callback stub_os (Some stub_frame) 2 4 8 stub_game_loaded) = 32 /\
   libretro_get_framebuffer_pitch
     (video_refresh_callback stub_os (Some stub_frame) 2 4 8 stub_game_loaded) = 8) /\
  libretro_get_framebuffer
    (video_refresh_callback (stub_platform false) (Some stub_frame) 2 4 8 stub_game_loaded)
    = None.
Proof.
  assert (Hgrow : framebuffer_size stub_game_loaded < size_mul 4 8)
    by (vm_compute; reflexivity).
  split.
  - destruct (video_refresh_grows stub_os stub_frame 2 4 8 stub_game_loaded Hgrow)
      as (_ & _ & _ & Hpitch & Hserved & _).
    destruct Hserved as (Hfb & _ & Hsize).
    + vm_compute. reflexivity.
    + vm_compute. lia.
    + rewrite Hsize, Hfb, Hpitch. repeat split.
  - destruct (video_refresh_grows (stub_platform false) stub_frame 2 4 8 stub_game_loaded Hgrow)
      as (_ & _ & _ & _ & _ & Hrefused).
    apply Hrefused. vm_compute. reflexivity.
Defined.

(** What a refused request leaves behind: the capacity is recorded as
    [required] although there is no storage, so a later frame that needs no
    more than that is not stored either, whatever the allocator would answer
    by then. *)
Lemma video_refresh_refused_stays_empty (os os' : platform) (src src' : list byte)
    (width height pitch width' height' pitch' : Z) (st : host) :
  framebuffer_size st < size_mul height pitch ->
  malloc_ok os (size_mul height pitch) = false ->
  size_mul height' pitch' <= size_mul height pitch ->
  framebuffer_size (video_refresh_callback os (Some src) width height pitch st)
    = size_mul height pitch /\
  libretro_get_framebuffer
    (video_refresh_callback os' (Some src') width' height' pitch'
       (video_refresh_callback os (Some src) width height pitch st)) = None.
Proof.
  intros Hgrow Hrefused Hfits.
  assert (Hfirst : framebuffer (video_refresh_callback os (Some src) width height pitch st) = None
                   /\ framebuffer_size (video_refresh_callback os (Some src) width height pitch st)
                      = size_mul height pitch).
  { unfold video_refresh_callback.
    cbn [framebuffer_size with_video_width with_video_height with_video_pitch].
    destruct (Z.ltb_spec (framebuffer_size st) (size_mul height pitch)) as [_|?]; [|lia].
    unfold malloc. rewrite Hrefused. by cbn. }
  destruct Hfirst as [Hnone Hsize]. split; [exact Hsize|].
  revert Hnone Hsize.
  generalize (video_refresh_callback os (Some src) width height pitch st). intros st1 Hnone Hsize.
  unfold video_refresh_callback, libretro_get_framebuffer.
  cbn [framebuffer_size framebuffer with_video_width with_video_height with_video_pitch].
  destruct (Z.ltb_spec (framebuffer_size st1) (size_mul height' pitch')) as [?|_]; [lia|].
  cbn [framebuffer with_video_width with_video_height with_video_pitch].
  by rewrite Hnone.
Qed.

(** ** What the callbacks leave alone *)

Lemma same_core_refl (st : host) : same_core st st.
Proof. done. Qed.

Lemma same_core_trans (st1 st2 st3 : host) :
  same_core st1 st2 -> same_core st2 st3 -> same_core st1 st3.
Proof. unfold same_core. intros (-> & -> & ->) (-> & -> & ->). done. Qed.

Lemma video_refresh_same_core os data width height pitch st :
  same_core st (video_refresh_callback os data width height pitch st).
Proof.
  unfold video_refresh_callback. destruct data as [src|]; [|done].
  cbn [framebuffer_size with_video_width with_video_height with_video_pitch].
  destruct (framebuffer_size st <? size_mul height pitch); cbn.
  - by destruct (malloc os (size_mul height pitch)).
  - by destruct (framebuffer st).
Qed.

Lemma audio_sample_same_core left right st :
  same_core st (audio_sample_callback left right st).
Proof.
  unfold audio_sample_callback. destruct (audio_buffer st); [|done].
  by destruct (audio_frames st <? MAX_AUDIO_FRAMES).
Qed.

Lemma audio_batch_same_core data frames st :
  same_core st (audio_sample_batch_callback data frames st).2.
Proof.
  unfold audio_sample_batch_callback. destruct (audio_buffer st); [|done].
  by destruct (0 <? _).
Qed.

Lemma environment_same_core cmd payload st :
  same_core st (environment_callback cmd payload st).2.
Proof.
  unfold environment_callback.
  repeat (match goal with |- context [if ?b then _ else _] => destruct b end); done.
Qed.

Lemma dispatch_same_core os cb st : same_core st (dispatch os cb st).
Proof.
  destruct cb; cbn [dispatch].
  - apply environment_same_core.
  - apply video_refresh_same_core.
  - apply audio_sample_same_core.
  - apply audio_batch_same_core.
  - done.
  - done.
Qed.

Lemma core_calls_back_same_core os after_init script st :
  same_core st (core_calls_back os after_init script st).
Proof.
  revert st. induction script as [|cb script IH]; intros st; [done|].
  unfold core_calls_back in *. cbn [foldl].
  eapply same_core_trans; [|apply IH].
  destruct (holds_callback after_init (syms st) cb); [apply dispatch_same_core | done].
Qed.

(** ** The audio queue stays within its capacity *)

Lemma audio_sample_audio_inv left right st :
  audio_inv st -> audio_inv (audio_sample_callback left right st).
Proof.
  intros Hinv. pose proof Hinv as [Hc Hlen]. unfold audio_sample_callback.
  destruct (audio_buffer st) as [buf|] eqn:Hbuf; [|done].
  destruct (Z.ltb_spec (audio_frames st) MAX_AUDIO_FRAMES) as [Hroom|Hfull].
  - split; cbn.
    + unfold MAX_AUDIO_FRAMES in *.
      rewrite size_add_small by (unfold SIZE_MODULUS; lia). lia.
    + by rewrite !length_insert.
  - done.
Qed.

Lemma audio_batch_audio_inv data frames st :
  audio_inv st -> audio_inv (audio_sample_batch_callback data frames st).2.
Proof.
  intros Hinv. pose proof Hinv as [Hc Hlen]. unfold audio_sample_batch_callback.
  destruct (audio_buffer st) as [buf|] eqn:Hbuf; [|done].
  unfold MAX_AUDIO_FRAMES in *.
  pose proof (size_add_range (audio_frames st) frames) as Hsum.
  destruct (Z.ltb_spec 8192 (size_add (audio_frames st) frames)) as [Hover|Hfits].
  - rewrite size_sub_small by (unfold SIZE_MODULUS; lia).
    destruct (Z.ltb_spec 0 (8192 - audio_frames st)); cbn [snd].
    + split; cbn.
      * rewrite size_add_small by (unfold SIZE_MODULUS; lia).
        unfold MAX_AUDIO_FRAMES. lia.
      * unfold memcpy. by rewrite length_inserts.
    + done.
  - destruct (Z.ltb_spec 0 frames); cbn [snd].
    + split; cbn.
      * unfold MAX_AUDIO_FRAMES. lia.
      * unfold memcpy. by rewrite length_inserts.
    + done.
Qed.

Lemma video_refresh_audio_inv os data width height pitch st :
  audio_inv st -> audio_inv (video_refresh_callback os data width height pitch st).
Proof.
  unfold video_refresh_callback. destruct data as [src|]; [|done].
  cbn [framebuffer_size with_video_width with_video_height with_video_pitch].
  destruct (framebuffer_size st <? size_mul height pitch); cbn.
  - by destruct (malloc os (size_mul height pitch)).
  - by destruct (framebuffer st).
Qed.

Lemma environment_audio_inv cmd payload st :
  audio_inv st -> audio_inv (environment_callback cmd payload st).2.
Proof.
  unfold environment_callback.
  repeat (match goal with |- context [if ?b then _ else _] => destruct b end); done.
Qed.

Lemma dispatch_audio_inv os cb st : audio_inv st -> audio_inv (dispatch os cb st).
Proof.
  destruct cb; cbn [dispatch].
  - apply environment_audio_inv.
  - apply video_refresh_audio_inv.
  - apply audio_sample_audio_inv.
  - apply audio_batch_audio_inv.
  - done.
  - done.
Qed.

Lemma core_calls_back_audio_inv os after_init script st :
  audio_inv st -> audio_inv (core_calls_back os after_init script st).
Proof.
  revert st. induction script as [|cb script IH]; intros st Hinv; [done|].
  unfold core_calls_back in *. cbn [foldl]. apply IH.
  destruct (holds_callback after_init (syms st) cb); [by apply dispatch_audio_inv | done].
Qed.

(** ** What an unload leaves behind *)

Lemma unload_core_releases (st : host) :
  core_handle (libretro_unload_core st) = None /\
  audio_buffer (libretro_unload_core st) = None /\
  framebuffer (libretro_unload_core st) = None /\
  framebuffer_size (libretro_unload_core st) = 0 /\
  audio_frames (libretro_unload_core st) = audio_frames st.
Proof.
  unfold libretro_unload_core.
  assert (Hpre : audio_frames (if game_loaded st then libretro_unload_game st else st)
                 = audio_frames st).
  { destruct (game_loaded st); [|done]. apply unload_game_frame. }
  rewrite <- Hpre.
  generalize (if game_loaded st then libretro_unload_game st else st). intros st1.
  destruct (core_handle st1) as [h|] eqn:Hh;
    [destruct (bound (core_deinit (syms st1)))|]; cbn; by rewrite ?Hh.
Qed.

(** ** The storage invariants hold in every reachable state *)

Lemma audio_inv_ext (st st' : host) :
  audio_frames st' = audio_frames st ->
  audio_buffer st' = audio_buffer st ->
  audio_inv st -> audio_inv st'.
Proof. unfold audio_inv. by intros -> ->. Qed.

Lemma hand_over_audio_inv setter entry st :
  audio_inv st -> audio_inv (hand_over setter entry st).
Proof. unfold hand_over. by destruct (bound setter). Qed.

Lemma hand_over_core_handle setter entry st :
  core_handle (hand_over setter entry st) = core_handle st.
Proof. unfold hand_over. by destruct (bound setter). Qed.

Lemma host_inv_initial : host_inv initial_host.
Proof. repeat split; cbn; unfold MAX_AUDIO_FRAMES; lia. Qed.

(** Before dlopen is reached, [libretro_load_core] holds neither buffer. *)
Lemma load_core_entry (st : host) :
  host_inv st ->
  audio_inv (if non_null (core_handle st) then libretro_unload_core st else st) /\
  audio_buffer (if non_null (core_handle st) then libretro_unload_core st else st) = None /\
  framebuffer (if non_null (core_handle st) then libretro_unload_core st else st) = None.
Proof.
  intros [Haudio Hstore]. unfold storage_inv in Hstore.
  destruct (core_handle st) as [h|]; cbn [non_null].
  - destruct (unload_core_releases st) as (_ & Hab & Hfb & _ & Hn).
    split; [|by split].
    destruct Haudio as [Hc _]. split; [by rewrite Hn | by rewrite Hab].
  - by destruct Hstore.
Qed.

(** The audio buffer is requested with room for 16384 cells. *)
Lemma audio_storage_cells :
  size_mul (size_mul MAX_AUDIO_FRAMES 2) sizeof_int16 / sizeof_int16 = 2 * MAX_AUDIO_FRAMES.
Proof. reflexivity. Qed.

Lemma length_malloc_int16 os n buf :
  malloc_int16 os n = Some buf -> length buf = Z.to_nat (n / sizeof_int16).
Proof.
  unfold malloc_int16. destruct (malloc_ok os n); [|done].
  intros [= <-]. apply length_fresh.
Qed.

Lemma load_core_host_inv os file st :
  host_inv st -> host_inv (libretro_load_core os file st).2.
Proof.
  intros Hinv. destruct (load_core_entry st Hinv) as (Haudio & Hab & Hfb).
  unfold libretro_load_core.
  generalize dependent (if non_null (core_handle st) then libretro_unload_core st else st).
  intros st1 Haudio Hab Hfb.
  destruct (dlopen os file) as [so|].
  - cbn [syms with_syms with_core_handle log with_trace].
    destruct (negb (bound (core_init (dl_exports so))) || _ || _ || _).
    + split; [by apply (audio_inv_ext st1) | by cbn].
    + cbn [snd]. split.
      * match goal with
        | |- audio_inv (with_audio_buffer ?b (log ?e ?s)) =>
            assert (Hs : audio_inv s); [|destruct Hs as [Hc _]; split; [exact Hc|]]
        end.
        { destruct (core_get_system_info (dl_exports so));
            [eapply audio_inv_ext; [reflexivity | reflexivity |] |];
            repeat apply hand_over_audio_inv;
            (destruct (core_init (dl_exports so));
              [apply core_calls_back_audio_inv|]);
            apply hand_over_audio_inv; by apply (audio_inv_ext st1). }
        cbn [audio_buffer with_audio_buffer].
        destruct (malloc_int16 os _) as [buf|] eqn:Hm; [|done].
        apply length_malloc_int16 in Hm. rewrite Hm, audio_storage_cells.
        unfold MAX_AUDIO_FRAMES. lia.
      * unfold storage_inv.
        match goal with
        | |- match core_handle (with_audio_buffer ?b (log ?e ?s)) with _ => _ end =>
            assert (Hs : core_handle s = Some (dl_handle so)); [|by cbn; rewrite Hs]
        end.
        destruct (core_get_system_info (dl_exports so)); cbn;
          rewrite !hand_over_core_handle;
          (destruct (core_init (dl_exports so));
            [rewrite (proj1 (core_calls_back_same_core _ _ _ _))|]);
          cbn; by rewrite hand_over_core_handle.
  - split; [by apply (audio_inv_ext st1) | by cbn].
Qed.

Lemma unload_game_host_inv st : host_inv st -> host_inv (libretro_unload_game st).
Proof.
  intros [Haudio Hstore].
  destruct (unload_game_frame st) as (Hh & _ & Hfb & Hab & Hn & _).
  split; [by apply (audio_inv_ext st)|].
  unfold storage_inv. by rewrite Hh, Hfb, Hab.
Qed.

Lemma unload_core_host_inv st : host_inv st -> host_inv (libretro_unload_core st).
Proof.
  intros [[Hc _] _].
  destruct (unload_core_releases st) as (Hh & Hab & Hfb & _ & Hn).
  split; [split|]; [by rewrite Hn | by rewrite Hab |].
  unfold storage_inv. by rewrite Hh.
Qed.

Lemma read_content_frame os file st :
  core_handle (read_content os file st).2 = core_handle st /\
  syms (read_content os file st).2 = syms st /\
  audio_frames (read_content os file st).2 = audio_frames st /\
  audio_buffer (read_content os file st).2 = audio_buffer st.
Proof.
  unfold read_content.
  destruct (need_fullpath (system_info st)); [done|].
  destruct (read_file os file) as [bytes|]; [|done].
  by destruct (malloc_ok os _).
Qed.

(** A host with a loaded core satisfies the storage invariant for free. *)
Lemma host_inv_loaded st h : audio_inv st -> core_handle st = Some h -> host_inv st.
Proof. intros Haudio Hh. split; [done|]. unfold storage_inv. by rewrite Hh. Qed.

Lemma load_game_host_inv os file st :
  host_inv st -> host_inv (libretro_load_game os file st).2.
Proof.
  intros Hinv. unfold libretro_load_game.
  destruct (core_handle st) as [h|] eqn:Hh; [|done].
  destruct (core_load_game (syms st)) as [load|]; [|done].
  destruct (read_content_frame os file st) as (Hh1 & _ & Hn1 & Hab1).
  set (st1 := (read_content os file st).2) in *.
  set (game := (read_content os file st).1).
  set (st2 := core_calls_back os true (load game).2 (log (EvCall "retro_load_game") st1)).
  assert (Haudio2 : audio_inv st2).
  { apply core_calls_back_audio_inv. apply (audio_inv_ext st); [done..|apply Hinv]. }
  assert (Hh2 : core_handle st2 = Some h).
  { unfold st2. rewrite (proj1 (core_calls_back_same_core _ _ _ _)). cbn. congruence. }
  set (st3 := if non_null (data game) then log (EvFree ContentStorage true) st2 else st2).
  assert (Haudio3 : audio_inv st3) by (unfold st3; by destruct (non_null (data game))).
  assert (Hh3 : core_handle st3 = Some h) by (unfold st3; by destruct (non_null (data game))).
  destruct ((load game).1); cbn [snd]; [|by eapply host_inv_loaded].
  cbn [syms with_game_loaded].
  apply (host_inv_loaded _ h).
  - destruct (core_get_system_av_info (syms st3)); cbn;
      destruct (bound (core_set_controller_port_device _));
      by apply (audio_inv_ext st3).
  - destruct (core_get_system_av_info (syms st3)); cbn;
      destruct (bound (core_set_controller_port_device _)); by cbn.
Qed.

Lemma run_frame_host_inv os st : host_inv st -> host_inv (libretro_run_frame os st).
Proof.
  intros Hinv. unfold libretro_run_frame.
  destruct (core_handle st) as [h|] eqn:Hh; [|done].
  destruct (core_run (syms st)) as [script|]; [|done].
  destruct (game_loaded st); [|done].
  apply (host_inv_loaded _ h).
  - apply core_calls_back_audio_inv. destruct Hinv as [[_ Hlen] _].
    split; [cbn; unfold MAX_AUDIO_FRAMES; lia | exact Hlen].
  - rewrite (proj1 (core_calls_back_same_core _ _ _ _)). by cbn.
Qed.

Lemma host_inv_ext (st st' : host) :
  core_handle st' = core_handle st ->
  framebuffer st' = framebuffer st ->
  audio_frames st' = audio_frames st ->
  audio_buffer st' = audio_buffer st ->
  host_inv st -> host_inv st'.
Proof. unfold host_inv, audio_inv, storage_inv. by intros -> -> -> ->. Qed.

(** Every call of the host-facing surface preserves the invariants, whatever
    the platform and whatever the core does. *)
Lemma host_inv_step os c st : host_inv st -> host_inv (step os c st).
Proof.
  intros Hinv. destruct c; cbn [step].
  - by apply (host_inv_ext st).
  - unfold libretro_deinit. destruct (non_null (core_handle st)); [|done].
    by apply unload_core_host_inv.
  - by apply load_core_host_inv.
  - by apply unload_core_host_inv.
  - by apply load_game_host_inv.
  - by apply unload_game_host_inv.
  - by apply run_frame_host_inv.
  - unfold libretro_reset. by destruct (_ && _ && _).
  - destruct Hinv as [[_ Hlen] Hstore].
    split; [split; [cbn; unfold MAX_AUDIO_FRAMES; lia | exact Hlen] | exact Hstore].
  - unfold libretro_set_button. by destruct (_ && _).
  - unfold libretro_set_input, libretro_set_button. by destruct (_ && _).
  - by apply (host_inv_ext st).
  - unfold libretro_get_save_state_size.
    by destruct (core_handle st), (core_serialize_size (syms st)).
  - unfold libretro_save_state.
    by destruct (core_handle st), (core_serialize (syms st)), (game_loaded st).
  - unfold libretro_load_state.
    by destruct (core_handle st), (core_unserialize (syms st)), (game_loaded st).
  - unfold libretro_get_sram.
    by destruct (core_handle st), (core_get_memory_data (syms st)).
  - unfold libretro_get_sram_size.
    by destruct (core_handle st), (core_get_memory_size (syms st)).
  - by destruct dir.
  - by destruct dir.
Qed.

Lemma reachable_host_inv st : reachable st -> host_inv st.
Proof.
  induction 1 as [|os c st _ IH|s st _ IH _].
  - apply host_inv_initial.
  - by apply host_inv_step.
  - by apply (host_inv_ext st).
Qed.

(** ** Loading a core *)

(** C7: when the opened module lacks any of [retro_init], [retro_deinit],
    [retro_run], [retro_load_game], [libretro_load_core] returns false, its
    last act is to dlclose the handle it had just opened, and the host is
    left Unloaded holding nothing (null handle, [libretro_is_loaded] false,
    no audio buffer, no framebuffer).  When the four are present the load
    succeeds whichever of the other 17 symbols are missing. *)
Theorem load_core_checks_mandatory (os : platform) (file : string) (st : host)
    (so : shared_object) :
  host_inv st ->
  dlopen os file = Some so ->
  (mandatory_bound (dl_exports so) = false ->
   (libretro_load_core os file st).1 = false /\
   (exists before,
      trace (libretro_load_core os file st).2
      = before ++ [EvDlopen file; EvDlclose (dl_handle so)]) /\
   core_handle (libretro_load_core os file st).2 = None /\
   libretro_is_loaded (libretro_load_core os file st).2 = false /\
   lifecycle_of (libretro_load_core os file st).2 = Unloaded /\
   libretro_get_audio_buffer (libretro_load_core os file st).2 = None /\
   libretro_get_framebuffer (libretro_load_core os file st).2 = None) /\
  (mandatory_bound (dl_exports so) = true ->
   (libretro_load_core os file st).1 = true /\
   libretro_is_loaded (libretro_load_core os file st).2 = true).
Proof.
  intros Hinv Hopen. destruct (load_core_entry st Hinv) as (_ & Hab & Hfb).
  unfold libretro_load_core, mandatory_bound. rewrite Hopen.
  generalize dependent (if non_null (core_handle st) then libretro_unload_core st else st).
  intros st1 Hab Hfb.
  cbn [syms with_syms with_core_handle log with_trace].
  split; intros Hsyms.
  - assert (Hmissing : negb (bound (core_init (dl_exports so)))
                       || negb (bound (core_deinit (dl_exports so)))
                       || negb (bound (core_run (dl_exports so)))
                       || negb (bound (core_load_game (dl_exports so))) = true).
    { destruct (bound (core_init _)), (bound (core_deinit _)), (bound (core_run _)),
        (bound (core_load_game _)); done. }
    rewrite Hmissing. cbn.
    repeat split; [|done..].
    exists (trace st1). by rewrite <- app_assoc.
  - apply andb_prop in Hsyms as [Hsyms Hload].
    apply andb_prop in Hsyms as [Hsyms Hrun].
    apply andb_prop in Hsyms as [Hinit Hdeinit].
    rewrite Hinit, Hdeinit, Hrun, Hload. cbn [negb orb fst snd].
    split; [done|]. unfold libretro_is_loaded.
    cbn [core_handle with_audio_buffer log with_trace].
    destruct (core_get_system_info (dl_exports so)); cbn;
      rewrite !hand_over_core_handle;
      (destruct (core_init (dl_exports so));
        [rewrite (proj1 (core_calls_back_same_core _ _ _ _))|]);
      cbn; by rewrite hand_over_core_handle.
Qed.

(** A core without [retro_run] loaded over a running game of the stub core. *)
Lemma load_core_checks_mandatory_witness :
  (libretro_load_core stub_os "no_run.dylib" stub_game_loaded).1 = false /\
  lifecycle_of (libretro_load_core stub_os "no_run.dylib" stub_game_loaded).2 = Unloaded /\
  libretro_get_audio_buffer (libretro_load_core stub_os "no_run.dylib" stub_game_loaded).2
    = None.
Proof.
  destruct (load_core_checks_mandatory stub_os "no_run.dylib" stub_game_loaded
              {| dl_handle := 12288; dl_exports := without_run stub_symbols |})
    as [Hfail _].
  - split; [split; [split; vm_compute; discriminate | vm_compute; reflexivity]
           | vm_compute; exact I].
  - vm_compute. reflexivity.
  - destruct Hfail as (Hret & _ & _ & _ & Hlife & Haudio & _); [vm_compute; reflexivity|].
    by rewrite Hret, Hlife, Haudio.
Defined.

(** ** Save states *)

Lemma save_state_gated (st : host) :
  game_loaded st = false ->
  (libretro_save_state st).1 = false /\ (libretro_load_state st).1 = false.
Proof.
  intros Hg. unfold libretro_save_state, libretro_load_state. rewrite Hg.
  by destruct (core_handle st), (core_serialize (syms st)), (core_unserialize (syms st)).
Qed.

Lemma save_state_size_unloaded (st : host) :
  core_handle st = None -> (libretro_get_save_state_size st).1 = 0.
Proof. intros Hh. unfold libretro_get_save_state_size. by rewrite Hh. Qed.

(** The size query is gated on the handle and the symbol only. *)
Lemma save_state_size_passes_through (st : host) (h : N) (n : Z) :
  core_handle st = Some h ->
  core_serialize_size (syms st) = Some n ->
  (libretro_get_save_state_size st).1 = n.
Proof. intros Hh Hs. unfold libretro_get_save_state_size. by rewrite Hh, Hs. Qed.

(** C1 does not hold of [libretro_get_save_state_size]: with the stub core
    loaded and no game loaded (CoreLoaded), [libretro_save_state] and
    [libretro_load_state] return false, but the size query calls the core
    and returns its 1024 instead of 0. *)
Theorem save_state_size_ignores_game_flag :
  reachable stub_core_loaded /\
  lifecycle_of stub_core_loaded = CoreLoaded /\
  libretro_is_game_loaded stub_core_loaded = false /\
  (libretro_get_save_state_size stub_core_loaded).1 = 1024 /\
  (libretro_save_state stub_core_loaded).1 = false /\
  (libretro_load_state stub_core_loaded).1 = false.
Proof.
  split.
  - unfold stub_core_loaded. apply reachable_step, reachable_initial.
  - repeat apply conj; vm_compute; reflexivity.
Qed.

(** ** Unloading a game *)

Lemma unload_game_bound (st : host) (h : N) :
  core_handle st = Some h ->
  game_loaded st = true ->
  core_unload_game (syms st) = Some tt ->
  lifecycle_of (libretro_unload_game st) = CoreLoaded /\
  trace (libretro_unload_game st) = trace st ++ [EvCall "retro_unload_game"].
Proof.
  intros Hh Hg Hs. unfold libretro_unload_game, lifecycle_of.
  rewrite Hh, Hg, Hs. cbn. by rewrite Hh.
Qed.

(** Without the entry point the whole call is skipped, the flag included. *)
Lemma unload_game_unbound (st : host) :
  core_unload_game (syms st) = None -> libretro_unload_game st = st.
Proof.
  intros Hs. unfold libretro_unload_game. rewrite Hs.
  by destruct (non_null (core_handle st)).
Qed.

(** C2 does not hold when [retro_unload_game] is not exported: the host that
    loaded such a core and a game into it is GameLoaded, and
    [libretro_unload_game] leaves it exactly as it was, GameLoaded. *)
Theorem unload_game_needs_entry_point :
  reachable no_unload_game_loaded /\
  lifecycle_of no_unload_game_loaded = GameLoaded /\
  core_unload_game (syms no_unload_game_loaded) = None /\
  libretro_unload_game no_unload_game_loaded = no_unload_game_loaded /\
  lifecycle_of (libretro_unload_game no_unload_game_loaded) = GameLoaded /\
  libretro_is_game_loaded (libretro_unload_game no_unload_game_loaded) = true.
Proof.
  split.
  - unfold no_unload_game_loaded, no_unload_core_loaded.
    do 2 apply reachable_step. apply reachable_initial.
  - repeat apply conj; vm_compute; reflexivity.
Qed.

(** ** The lifecycle invariant *)

(** C3 does not hold: the host that loaded a core without [retro_unload_game]
    and a game into it satisfies the invariant, and [libretro_unload_core]
    takes it to a state with a null handle and the game flag still set. *)
Theorem unload_core_breaks_lifecycle_inv :
  lifecycle_inv initial_host /\
  reachable no_unload_game_loaded /\
  lifecycle_inv no_unload_game_loaded /\
  core_handle (libretro_unload_core no_unload_game_loaded) = None /\
  game_loaded (libretro_unload_core no_unload_game_loaded) = true /\
  ~ lifecycle_inv (libretro_unload_core no_unload_game_loaded).
Proof.
  assert (Hh : core_handle (libretro_unload_core no_unload_game_loaded) = None)
    by (vm_compute; reflexivity).
  assert (Hg : game_loaded (libretro_unload_core no_unload_game_loaded) = true)
    by (vm_compute; reflexivity).
  split; [|split; [|split; [|split; [|split]]]].
  - intros Hgame. discriminate Hgame.
  - unfold no_unload_game_loaded, no_unload_core_loaded.
    do 2 apply reachable_step. apply reachable_initial.
  - intros _. vm_compute. discriminate.
  - exact Hh.
  - exact Hg.
  - intros Hinv. exact (Hinv Hg Hh).
Qed.

Lemma unload_core_game_loaded (st : host) :
  game_loaded (libretro_unload_core st)
  = game_loaded (if game_loaded st then libretro_unload_game st else st).
Proof.
  unfold libretro_unload_core.
  generalize (if game_loaded st then libretro_unload_game st else st). intros st1.
  by destruct (core_handle st1) as [h|]; [destruct (bound (core_deinit (syms st1)))|].
Qed.

Lemma load_core_game_loaded os file st :
  game_loaded (libretro_load_core os file st).2
  = game_loaded (if non_null (core_handle st) then libretro_unload_core st else st).
Proof.
  unfold libretro_load_core.
  generalize (if non_null (core_handle st) then libretro_unload_core st else st). intros st1.
  destruct (dlopen os file) as [so|]; [|done].
  cbn [syms with_syms with_core_handle log with_trace].
  destruct (negb (bound (core_init (dl_exports so))) || _ || _ || _); [done|].
  cbn [snd game_loaded with_audio_buffer log with_trace].
  destruct (core_get_system_info (dl_exports so)); cbn;
    unfold hand_over;
    repeat (match goal with |- context [if bound ?f then _ else _] => destruct (bound f) end;
            cbn);
    (destruct (core_init (dl_exports so));
      [rewrite (proj1 (proj2 (core_calls_back_same_core _ _ _ _)))|]);
    cbn; by repeat (match goal with
                    | |- context [if bound ?f then _ else _] => destruct (bound f)
                    end; cbn).
Qed.

Lemma unload_core_clears_game (st : host) :
  lifecycle_inv st ->
  (game_loaded st = true -> bound (core_unload_game (syms st)) = true) ->
  game_loaded (libretro_unload_core st) = false.
Proof.
  intros Hinv Hsym. rewrite unload_core_game_loaded.
  destruct (game_loaded st) eqn:Hg; [|done].
  unfold libretro_unload_game. rewrite Hg, Hsym by done.
  destruct (core_handle st) as [h|] eqn:Hh; [done|].
  by destruct (Hinv Hg).
Qed.

(** X11: apart from that defect the invariant is sound: every call of the
    host-facing surface preserves "a loaded game implies a loaded core" from
    any state in which a loaded game belongs to a core that exports
    [retro_unload_game]. *)
Lemma lifecycle_inv_step os c st :
  lifecycle_inv st ->
  (game_loaded st = true -> bound (core_unload_game (syms st)) = true) ->
  lifecycle_inv (step os c st).
Proof.
  intros Hinv Hsym.
  assert (Hkeep : forall st', core_handle st' = core_handle st ->
                              game_loaded st' = game_loaded st -> lifecycle_inv st').
  { unfold lifecycle_inv. by intros st' -> ->. }
  assert (Hunloaded : forall st', game_loaded st' = false -> lifecycle_inv st').
  { unfold lifecycle_inv. by intros st' ->. }
  destruct c; cbn [step].
  - by apply Hkeep.
  - unfold libretro_deinit. destruct (non_null (core_handle st)); [|done].
    by apply Hunloaded, unload_core_clears_game.
  - apply Hunloaded. rewrite load_core_game_loaded.
    destruct (core_handle st) as [h|] eqn:Hh; cbn [non_null].
    + by apply unload_core_clears_game.
    + destruct (game_loaded st) eqn:Hg; [|done]. by destruct (Hinv Hg).
  - by apply Hunloaded, unload_core_clears_game.
  - unfold libretro_load_game.
    destruct (core_handle st) as [h|] eqn:Hh; [|done].
    destruct (core_load_game (syms st)) as [load|]; [|done].
    destruct (read_content_frame os file st) as (Hh1 & _).
    set (st1 := (read_content os file st).2) in *.
    set (game := (read_content os file st).1).
    set (st2 := core_calls_back os true (load game).2 (log (EvCall "retro_load_game") st1)).
    assert (Hh2 : core_handle st2 = Some h).
    { unfold st2. rewrite (proj1 (core_calls_back_same_core _ _ _ _)). cbn. congruence. }
    set (st3 := if non_null (data game) then log (EvFree ContentStorage true) st2 else st2).
    assert (Hh3 : core_handle st3 = Some h) by (unfold st3; by destruct (non_null (data game))).
    intros _.
    destruct ((load game).1); cbn [snd]; [|by rewrite Hh3].
    cbn [syms with_game_loaded].
    destruct (core_get_system_av_info (syms st3)); cbn;
      destruct (bound (core_set_controller_port_device _)); cbn; by rewrite Hh3.
  - destruct (unload_game_frame st) as (Hh & _).
    unfold lifecycle_inv. rewrite Hh. intros Hg. apply Hinv.
    unfold libretro_unload_game in Hg.
    destruct (non_null (core_handle st) && bound (core_unload_game (syms st)) && game_loaded st);
      [done | exact Hg].
  - unfold libretro_run_frame.
    destruct (core_handle st) as [h|] eqn:Hh; [|done].
    destruct (core_run (syms st)) as [script|]; [|done].
    destruct (game_loaded st); [|done].
    intros _. rewrite (proj1 (core_calls_back_same_core _ _ _ _)). by cbn; rewrite Hh.
  - unfold libretro_reset. by destruct (_ && _ && _).
  - by apply Hkeep.
  - unfold libretro_set_button. by destruct (_ && _).
  - unfold libretro_set_input, libretro_set_button. by destruct (_ && _).
  - by apply Hkeep.
  - unfold libretro_get_save_state_size.
    by destruct (core_handle st), (core_serialize_size (syms st)).
  - unfold libretro_save_state.
    by destruct (core_handle st), (core_serialize (syms st)), (game_loaded st).
  - unfold libretro_load_state.
    by destruct (core_handle st), (core_unserialize (syms st)), (game_loaded st).
  - unfold libretro_get_sram.
    by destruct (core_handle st), (core_get_memory_data (syms st)).
  - unfold libretro_get_sram_size.
    by destruct (core_handle st), (core_get_memory_size (syms st)).
  - by destruct dir.
  - by destruct dir.
Qed.

(** ** One execution cycle *)



(** ** Further properties of the bridges *)

(** A null frame is a duplicate: nothing changes, geometry included. *)
Lemma video_refresh_null os width height pitch st :
  video_refresh_callback os None width height pitch st = st.
Proof. reflexivity. Qed.

(** A frame that fits the capacity is copied over the front of the storage
    in place: no call to free or malloc, capacity unchanged. *)
Lemma video_refresh_fits os src width height pitch st fb :
  size_mul height pitch <= framebuffer_size st ->
  framebuffer st = Some fb ->
  video_refresh_callback os (Some src) width height pitch st
  = with_framebuffer (Some (memcpy fb 0 src (Z.to_nat (size_mul height pitch))))
      (with_video_pitch pitch (with_video_height height (with_video_width width st))).
Proof.
  intros Hfits Hfb. unfold video_refresh_callback.
  cbn [framebuffer_size with_video_width with_video_height with_video_pitch].
  destruct (Z.ltb_spec (framebuffer_size st) (size_mul height pitch)) as [?|_]; [lia|].
  cbn [framebuffer with_video_width with_video_height with_video_pitch]. by rewrite Hfb.
Qed.

(** Queries outside the 4 x 16 matrix, or for a device other than the
    joypad, read 0 whatever was written before. *)
Lemma input_state_out_of_range port device index id st :
  MAX_PORTS <= port \/ device <> RETRO_DEVICE_JOYPAD \/ MAX_BUTTONS <= id ->
  input_state_callback port device index id st = 0.
Proof.
  intros Hout. unfold input_state_callback.
  destruct (Z.leb_spec MAX_PORTS port), (Z.eqb_spec device RETRO_DEVICE_JOYPAD),
    (Z.leb_spec MAX_BUTTONS id); cbn [orb negb]; try done.
  lia.
Qed.

(** Writes outside the matrix are ignored. *)
Lemma set_button_out_of_range port button pressed st :
  MAX_PORTS <= port \/ MAX_BUTTONS <= button ->
  libretro_set_button port button pressed st = st.
Proof.
  intros Hout. unfold libretro_set_button.
  destruct (Z.ltb_spec port MAX_PORTS), (Z.ltb_spec button MAX_BUTTONS); cbn [andb];
    try done.
  lia.
Qed.

(** The environment negotiator answers false to every command it does not
    know, and to get-variable. *)
Lemma environment_unsupported cmd payload st :
  ~ In cmd [RETRO_ENVIRONMENT_GET_LOG_INTERFACE; RETRO_ENVIRONMENT_GET_CAN_DUPE;
            RETRO_ENVIRONMENT_SET_PIXEL_FORMAT; RETRO_ENVIRONMENT_GET_SYSTEM_DIRECTORY;
            RETRO_ENVIRONMENT_GET_SAVE_DIRECTORY; RETRO_ENVIRONMENT_GET_CORE_ASSETS_DIRECTORY;
            RETRO_ENVIRONMENT_SET_SUPPORT_NO_GAME; RETRO_ENVIRONMENT_SET_VARIABLES;
            RETRO_ENVIRONMENT_SET_CORE_OPTIONS_V2; RETRO_ENVIRONMENT_GET_VARIABLE_UPDATE] ->
  (environment_callback cmd payload st).1.1 = false /\
  (environment_callback cmd payload st).2 = st.
Proof.
  intros Hcmd. unfold environment_callback.
  repeat match goal with
         | |- context [?a =? ?b] =>
             destruct (Z.eqb_spec a b) as [->|?]; [try (exfalso; apply Hcmd; cbn; tauto)|]
         end; done.
Qed.

(** A whole session on the stub core: the getters read 0 x 0 at 60 fps
    before, and after load, game, one frame and unload they still read what
    the session left, 2 x 4 at a pitch of 8 and the core's 59.5 fps and 48 kHz,
    while the framebuffer is gone. *)
Example stub_session_geometry_survives_unload :
  libretro_get_width initial_host = 0 /\
  libretro_get_width (libretro_unload_core (libretro_run_frame stub_os stub_game_loaded)) = 2 /\
  libretro_get_height (libretro_unload_core (libretro_run_frame stub_os stub_game_loaded)) = 4 /\
  libretro_get_framebuffer_pitch
    (libretro_unload_core (libretro_run_frame stub_os stub_game_loaded)) = 8 /\
  libretro_get_fps (libretro_unload_core (libretro_run_frame stub_os stub_game_loaded))
    = 59.5%float /\
  libretro_get_sample_rate (libretro_unload_core (libretro_run_frame stub_os stub_game_loaded))
    = 48000%float /\
  libretro_get_framebuffer (libretro_run_frame stub_os stub_game_loaded) = Some stub_frame /\
  libretro_get_framebuffer (libretro_unload_core (libretro_run_frame stub_os stub_game_loaded))
    = None.
Proof. repeat apply conj; vm_compute; reflexivity. Qed.

(** ** Negotiation during a load *)

Lemma with_pixel_format_same (st : host) : with_pixel_format (pixel_format st) st = st.
Proof. by destruct st. Qed.

Lemma environment_callback_state cmd payload st :
  (environment_callback cmd payload st).2
  = if cmd =? RETRO_ENVIRONMENT_SET_PIXEL_FORMAT then with_pixel_format payload st else st.
Proof.
  unfold environment_callback.
  repeat match goal with
         | |- context [?a =? ?b] => destruct (Z.eqb_spec a b) as [->|?]
         end; done.
Qed.

(** Before [retro_init] returns the core holds at most the environment
    callback, so all its callbacks can do is renegotiate the pixel format. *)
Lemma init_callbacks_effect os (script : list callback) :
  forall st : host,
    core_calls_back os false script st
    = with_pixel_format
        (if bound (core_set_environment (syms st))
         then negotiated_format script (pixel_format st) else pixel_format st) st.
Proof.
  induction script as [|cb script IH]; intros st.
  - cbn. destruct (bound _); by rewrite with_pixel_format_same.
  - unfold core_calls_back, negotiated_format in *. cbn [foldl]. rewrite IH. clear IH.
    destruct cb; cbn [holds_callback andb dispatch]; try reflexivity.
    destruct (bound (core_set_environment (syms st))) eqn:Henv; [|by rewrite Henv].
    rewrite environment_callback_state.
    destruct (cmd =? RETRO_ENVIRONMENT_SET_PIXEL_FORMAT); cbn; by rewrite Henv.
Qed.

Lemma hand_over_pixel_format setter entry st :
  pixel_format (hand_over setter entry st) = pixel_format st.
Proof. unfold hand_over. by destruct (bound setter). Qed.

Lemma hand_over_syms setter entry st : syms (hand_over setter entry st) = syms st.
Proof. unfold hand_over. by destruct (bound setter). Qed.

Lemma unload_core_pixel_format st :
  pixel_format (libretro_unload_core st) = pixel_format st.
Proof.
  unfold libretro_unload_core, libretro_unload_game.
  destruct (game_loaded st);
    [destruct (non_null (core_handle st) && bound (core_unload_game (syms st)) && true)|];
    cbn [core_handle log with_trace with_game_loaded];
    (destruct (core_handle st); [cbn; destruct (bound (core_deinit _))|]); reflexivity.
Qed.

(** X1: a successful [libretro_load_core] leaves the pixel format that the
    core's [retro_init] negotiated: the payload of its last set-pixel-format
    command if [retro_set_environment] is exported and the script has one,
    and otherwise the format the host had before the load. *)
Theorem load_core_negotiates_pixel_format os file st so script :
  dlopen os file = Some so ->
  mandatory_bound (dl_exports so) = true ->
  core_init (dl_exports so) = Some script ->
  libretro_get_pixel_format (libretro_load_core os file st).2
  = if bound (core_set_environment (dl_exports so))
    then negotiated_format script (pixel_format st)
    else pixel_format st.
Proof.
  intros Hopen Hsyms Hinit.
  assert (Hpf : pixel_format (if non_null (core_handle st) then libretro_unload_core st else st)
                = pixel_format st).
  { destruct (non_null (core_handle st)); [apply unload_core_pixel_format | done]. }
  unfold libretro_load_core, mandatory_bound, libretro_get_pixel_format in *.
  rewrite Hopen. rewrite <- Hpf.
  generalize (if non_null (core_handle st) then libretro_unload_core st else st). intros st1.
  cbn [syms with_syms with_core_handle log with_trace].
  apply andb_prop in Hsyms as [Hsyms Hload].
  apply andb_prop in Hsyms as [Hsyms Hrun].
  apply andb_prop in Hsyms as [Hbinit Hdeinit].
  rewrite Hbinit, Hdeinit, Hrun, Hload. cbn [negb orb snd].
  rewrite Hinit, init_callbacks_effect.
  destruct (core_get_system_info (dl_exports so));
    cbn [pixel_format with_audio_buffer log with_trace with_system_info];
    rewrite !hand_over_pixel_format;
    cbn [pixel_format with_pixel_format syms log with_trace];
    rewrite hand_over_syms; reflexivity.
Qed.

(** The stub core asks for RGB565 from inside its [retro_init]. *)
Lemma load_core_negotiates_pixel_format_witness :
  libretro_get_pixel_format (libretro_load_core stub_os "stub.dylib" initial_host).2
  = RETRO_PIXEL_FORMAT_RGB565.
Proof.
  apply (load_core_negotiates_pixel_format stub_os "stub.dylib" initial_host
           {| dl_handle := 4096; dl_exports := stub_symbols |}
           [CbEnvironment RETRO_ENVIRONMENT_SET_PIXEL_FORMAT RETRO_PIXEL_FORMAT_RGB565]).
  - vm_compute. reflexivity.
  - vm_compute. reflexivity.
  - vm_compute. reflexivity.
Defined.

(** ** The order of calls in a load *)

Lemma hand_over_trace setter entry st :
  trace (hand_over setter entry st) = trace st ++ call_if setter entry.
Proof.
  unfold hand_over, call_if. destruct (bound setter); cbn; [done | by rewrite app_nil_r].
Qed.

(** X2: in a successful [libretro_load_core] the calls that leave the host
    are, in this order: dlopen, [retro_set_environment] if exported,
    [retro_init] exactly once, then the five other callback setters and
    [retro_get_system_info], each if exported, and last the request for the
    32768-byte audio buffer.  Nothing the core does inside [retro_init] adds
    a call. *)
Theorem load_core_call_order os file st so :
  dlopen os file = Some so ->
  mandatory_bound (dl_exports so) = true ->
  trace (libretro_load_core os file st).2
  = trace (if non_null (core_handle st) then libretro_unload_core st else st)
    ++ [EvDlopen file]
    ++ call_if (core_set_environment (dl_exports so)) "retro_set_environment"
    ++ [EvCall "retro_init"]
    ++ call_if (core_set_video_refresh (dl_exports so)) "retro_set_video_refresh"
    ++ call_if (core_set_audio_sample (dl_exports so)) "retro_set_audio_sample"
    ++ call_if (core_set_audio_sample_batch (dl_exports so)) "retro_set_audio_sample_batch"
    ++ call_if (core_set_input_poll (dl_exports so)) "retro_set_input_poll"
    ++ call_if (core_set_input_state (dl_exports so)) "retro_set_input_state"
    ++ call_if (core_get_system_info (dl_exports so)) "retro_get_system_info"
    ++ [EvMalloc AudioStorage 32768].
Proof.
  intros Hopen Hsyms.
  unfold libretro_load_core, mandatory_bound in *. rewrite Hopen.
  generalize (if non_null (core_handle st) then libretro_unload_core st else st). intros st1.
  cbn [syms with_syms with_core_handle log with_trace].
  apply andb_prop in Hsyms as [Hsyms Hload].
  apply andb_prop in Hsyms as [Hsyms Hrun].
  apply andb_prop in Hsyms as [Hbinit Hdeinit].
  rewrite Hbinit, Hdeinit, Hrun, Hload. cbn [negb orb snd].
  destruct (core_init (dl_exports so)) as [script|]; [|done].
  rewrite init_callbacks_effect.
  change (size_mul (size_mul MAX_AUDIO_FRAMES 2) sizeof_int16) with 32768.
  cbn [trace with_audio_buffer log with_trace].
  assert (Hinfo : forall s : host,
            trace match core_get_system_info (dl_exports so) with
                  | Some info => with_system_info info (log (EvCall "retro_get_system_info") s)
                  | None => s
                  end
            = trace s ++ call_if (core_get_system_info (dl_exports so)) "retro_get_system_info").
  { intros s. unfold call_if.
    destruct (core_get_system_info (dl_exports so)); cbn; [done | by rewrite app_nil_r]. }
  rewrite Hinfo, !hand_over_trace.
  cbn [trace with_pixel_format log with_trace]. rewrite hand_over_trace.
  cbn [trace with_syms with_core_handle log with_trace].
  rewrite <- !app_assoc. reflexivity.
Qed.

(** The stub core exports everything: ten calls, in order. *)
Lemma load_core_call_order_witness :
  trace (libretro_load_core stub_os "stub.dylib" initial_host).2
  = [ EvDlopen "stub.dylib"; EvCall "retro_set_environment"; EvCall "retro_init";
      EvCall "retro_set_video_refresh"; EvCall "retro_set_audio_sample";
      EvCall "retro_set_audio_sample_batch"; EvCall "retro_set_input_poll";
      EvCall "retro_set_input_state"; EvCall "retro_get_system_info";
      EvMalloc AudioStorage 32768 ].
Proof.
  apply (load_core_call_order stub_os "stub.dylib" initial_host
           {| dl_handle := 4096; dl_exports := stub_symbols |}).
  - vm_compute. reflexivity.
  - vm_compute. reflexivity.
Defined.

(** ** The input shuttle *)

Lemma input_inv_initial : input_inv initial_host.
Proof.
  split; cbn [input_state initial_host].
  - by rewrite length_replicate.
  - apply Forall_replicate. by rewrite length_replicate.
Qed.

Lemma clear_input_inv st : input_inv (libretro_clear_input st).
Proof.
  split; cbn [input_state libretro_clear_input with_input_state].
  - by rewrite length_replicate.
  - apply Forall_replicate. by rewrite length_replicate.
Qed.

Lemma set_button_inv port button pressed st :
  input_inv st -> input_inv (libretro_set_button port button pressed st).
Proof.
  intros [Hrows Hcells]. unfold libretro_set_button.
  destruct (_ && _); [|done].
  split; cbn [input_state with_input_state].
  - by rewrite length_alter.
  - apply Forall_alter; [done|]. intros row Hrow Hlen. by rewrite length_insert.
Qed.

(** X3: a button written inside the 4 x 16 matrix is what the core's query
    reads back for that port and button (1 if pressed, 0 if released), and
    the write changes the answer to no other query. *)
Theorem set_button_then_query (port button : Z) (pressed : bool) (st : host) :
  input_inv st ->
  0 <= port < MAX_PORTS ->
  0 <= button < MAX_BUTTONS ->
  (forall index,
     input_state_callback port RETRO_DEVICE_JOYPAD index button
       (libretro_set_button port button pressed st)
     = if pressed then 1 else 0) /\
  (forall port' device index id,
     0 <= port' -> 0 <= id -> (port', id) <> (port, button) ->
     input_state_callback port' device index id (libretro_set_button port button pressed st)
     = input_state_callback port' device index id st).
Proof.
  intros [Hrows Hcells] Hport Hbutton.
  unfold libretro_set_button, input_state_callback.
  destruct (Z.ltb_spec port MAX_PORTS) as [_|?]; [|lia].
  destruct (Z.ltb_spec button MAX_BUTTONS) as [_|?]; [|lia].
  cbn [andb input_state with_input_state]. split.
  - intros index.
    destruct (Z.leb_spec MAX_PORTS port) as [?|_]; [lia|].
    destruct (Z.leb_spec MAX_BUTTONS button) as [?|_]; [lia|].
    rewrite Z.eqb_refl. cbn [negb orb].
    rewrite list_lookup_alter, decide_True by done.
    destruct (input_state st !! Z.to_nat port) as [row|] eqn:Hrow.
    + cbn. rewrite list_lookup_insert_eq; [by destruct pressed|].
      rewrite (Forall_lookup_1 _ _ _ _ Hcells Hrow).
      unfold MAX_BUTTONS in *. lia.
    + apply lookup_ge_None in Hrow. unfold MAX_PORTS in *. lia.
  - intros port' device index id Hport' Hid Hother.
    destruct (_ || _ || _); [done|].
    destruct (decide (Z.to_nat port' = Z.to_nat port)) as [Hsame|Hdiff].
    + rewrite Hsame, list_lookup_alter, decide_True by done.
      destruct (input_state st !! Z.to_nat port) as [row|]; [|done]. cbn.
      rewrite list_lookup_insert_ne; [done|].
      intros Hcell. apply Hother. f_equal; lia.
    + by rewrite list_lookup_alter_ne.
Qed.

(** Player 2 presses START on a fresh host. *)
Lemma set_button_then_query_witness :
  input_state_callback 1 RETRO_DEVICE_JOYPAD 0 3 (libretro_set_button 1 3 true initial_host) = 1 /\
  input_state_callback 0 RETRO_DEVICE_JOYPAD 0 3 (libretro_set_button 1 3 true initial_host)
  = input_state_callback 0 RETRO_DEVICE_JOYPAD 0 3 initial_host.
Proof.
  destruct (set_button_then_query 1 3 true initial_host) as [Hread Hother].
  - split; vm_compute; [reflexivity | repeat constructor].
  - vm_compute. split; [discriminate | reflexivity].
  - vm_compute. split; [discriminate | reflexivity].
  - split; [apply Hread | apply Hother; [lia | lia | discriminate]].
Defined.

(** X4: after [libretro_clear_input], and after [libretro_init], every query
    the core can make reads 0. *)
Theorem clear_input_reads_zero (port device index id : Z) (st : host) :
  input_state_callback port device index id (libretro_clear_input st) = 0 /\
  input_state_callback port device index id (libretro_init st) = 0.
Proof.
  assert (Hzero : forall rows : list (list bool),
            rows = replicate (Z.to_nat MAX_PORTS) (replicate (Z.to_nat MAX_BUTTONS) false) ->
            match rows !! Z.to_nat port with
            | Some row => match row !! Z.to_nat id with Some true => 1 | _ => 0 end
            | None => 0
            end = 0).
  { intros rows ->.
    destruct (replicate _ _ !! Z.to_nat port) as [row|] eqn:Hrow; [|done].
    apply lookup_replicate in Hrow as [-> _].
    destruct (replicate _ _ !! Z.to_nat id) as [cell|] eqn:Hcell; [|done].
    by apply lookup_replicate in Hcell as [-> _]. }
  unfold input_state_callback, libretro_init, libretro_clear_input.
  cbn [input_state with_input_state with_pixel_format].
  destruct (_ || _ || _); [done|]. split; by apply Hzero.
Qed.

(** X5: a write outside the matrix is ignored: a port of 4 or more, a button
    of 16 or more, or, through [libretro_set_input], a negative button code
    (which the cast to unsigned makes huge) leaves the host as it was. *)
Theorem set_input_ignores_out_of_range (port button : Z) (pressed : bool) (st : host) :
  -2147483648 <= button < 2147483648 ->
  MAX_PORTS <= port \/ button < 0 \/ MAX_BUTTONS <= button ->
  libretro_set_input port button pressed st = st /\
  (0 <= button -> libretro_set_button port button pressed st = st).
Proof.
  intros Hint Hout. unfold libretro_set_input, libretro_set_button, MAX_PORTS, MAX_BUTTONS in *.
  split.
  - destruct (Z.ltb_spec port 4); [|done].
    destruct (Z.ltb_spec (button mod 4294967296) 16) as [Hsmall|]; [|done].
    exfalso. destruct (Z.lt_ge_cases button 0) as [Hneg|Hpos].
    + assert (button mod 4294967296 = button + 4294967296); [|lia].
      symmetry. apply (Z.mod_unique_pos _ _ (-1)); lia.
    + rewrite Z.mod_small in Hsmall by lia. lia.
  - intros Hpos.
    destruct (Z.ltb_spec port 4), (Z.ltb_spec button 16); cbn [andb]; try done. lia.
Qed.

Lemma set_input_ignores_out_of_range_witness :
  libretro_set_input 0 (-1) true initial_host = initial_host.
Proof.
  apply (set_input_ignores_out_of_range 0 (-1) true initial_host).
  - vm_compute. split; [discriminate | reflexivity].
  - right. left. reflexivity.
Defined.

(** ** Directories *)

Lemma substring_0_short (n : nat) (s : string) :
  (String.length s <= n)%nat -> substring 0 n s = s.
Proof.
  revert n. induction s as [|c s IH]; intros n Hlen.
  - by destruct n.
  - destruct n as [|n]; cbn in *; [lia|]. rewrite IH; [done | lia].
Qed.

Lemma length_substring_0 (n : nat) (s : string) :
  (String.length (substring 0 n s) <= n)%nat.
Proof.
  revert n. induction s as [|c s IH]; intros n.
  - destruct n; cbn; lia.
  - destruct n as [|n]; cbn; [lia|]. specialize (IH n). lia.
Qed.

Lemma prefix_substring_0 (n : nat) (s : string) :
  String.prefix (substring 0 n s) s = true.
Proof.
  revert n. induction s as [|c s IH]; intros n.
  - by destruct n.
  - destruct n as [|n]; cbn; [done|].
    destruct (Ascii.ascii_dec c c); [apply IH | done].
Qed.

(** X6: a directory of fewer than 4096 characters set through
    [libretro_set_system_directory] or [libretro_set_save_directory] is what
    the core is told when it asks: the system directory for the system and
    the core-assets queries, the save directory for the save query, and
    setting the one leaves the other alone. *)
Theorem set_directory_then_query (d : string) (payload : Z) (st : host) :
  d <> EmptyString ->
  Z.of_nat (String.length d) < DIRECTORY_SIZE ->
  (environment_callback RETRO_ENVIRONMENT_GET_SYSTEM_DIRECTORY payload
     (libretro_set_system_directory (Some d) st)).1 = (true, OutPath d) /\
  (environment_callback RETRO_ENVIRONMENT_GET_CORE_ASSETS_DIRECTORY payload
     (libretro_set_system_directory (Some d) st)).1 = (true, OutPath d) /\
  (environment_callback RETRO_ENVIRONMENT_GET_SAVE_DIRECTORY payload
     (libretro_set_save_directory (Some d) st)).1 = (true, OutPath d) /\
  (environment_callback RETRO_ENVIRONMENT_GET_SAVE_DIRECTORY payload
     (libretro_set_system_directory (Some d) st)).1
  = (environment_callback RETRO_ENVIRONMENT_GET_SAVE_DIRECTORY payload st).1.
Proof.
  intros Hnonempty Hshort. unfold DIRECTORY_SIZE in *.
  assert (Hsub : substring 0 (Z.to_nat (4096 - 1)) d = d) by (apply substring_0_short; lia).
  unfold environment_callback, libretro_set_system_directory, libretro_set_save_directory,
    DIRECTORY_SIZE.
  cbn [Z.eqb RETRO_ENVIRONMENT_GET_SYSTEM_DIRECTORY RETRO_ENVIRONMENT_GET_LOG_INTERFACE
       RETRO_ENVIRONMENT_GET_CAN_DUPE RETRO_ENVIRONMENT_SET_PIXEL_FORMAT
       RETRO_ENVIRONMENT_GET_SAVE_DIRECTORY RETRO_ENVIRONMENT_GET_CORE_ASSETS_DIRECTORY
       Pos.eqb fst snd system_directory save_directory with_system_directory
       with_save_directory].
  rewrite Hsub. destruct d; [done|]. repeat split.
Qed.

Lemma set_directory_then_query_witness :
  (environment_callback RETRO_ENVIRONMENT_GET_SYSTEM_DIRECTORY 0
     (libretro_set_system_directory (Some "/roms/bios"%string) initial_host)).1
  = (true, OutPath "/roms/bios"%string).
Proof.
  apply (set_directory_then_query "/roms/bios"%string 0 initial_host).
  - discriminate.
  - vm_compute. reflexivity.
Defined.

(** X7: whatever path is given, the stored directory is a prefix of it of at
    most 4095 characters, so the 4096-byte array is never overrun; a null
    path changes nothing; and an empty directory is reported to the core as
    ["."]. *)
Theorem directory_is_bounded (d : string) (payload : Z) (st : host) :
  Z.of_nat (String.length (system_directory (libretro_set_system_directory (Some d) st)))
    < DIRECTORY_SIZE /\
  String.prefix (system_directory (libretro_set_system_directory (Some d) st)) d = true /\
  Z.of_nat (String.length (save_directory (libretro_set_save_directory (Some d) st)))
    < DIRECTORY_SIZE /\
  String.prefix (save_directory (libretro_set_save_directory (Some d) st)) d = true /\
  libretro_set_system_directory None st = st /\
  libretro_set_save_directory None st = st /\
  (environment_callback RETRO_ENVIRONMENT_GET_SYSTEM_DIRECTORY payload
     (libretro_set_system_directory (Some EmptyString) st)).1 = (true, OutPath "."%string) /\
  (environment_callback RETRO_ENVIRONMENT_GET_SAVE_DIRECTORY payload
     (libretro_set_save_directory (Some EmptyString) st)).1 = (true, OutPath "."%string).
Proof.
  unfold libretro_set_system_directory, libretro_set_save_directory, DIRECTORY_SIZE.
  cbn [system_directory save_directory with_system_directory with_save_directory].
  pose proof (length_substring_0 (Z.to_nat (4096 - 1)) d) as Hlen.
  pose proof (prefix_substring_0 (Z.to_nat (4096 - 1)) d) as Hpre.
  repeat apply conj; try done; lia.
Qed.

(** ** The environment negotiator, command by command *)

(** X8: [environment_callback] answers true exactly to the ten commands it
    knows (get-variable and everything else get false), and no command but
    set-pixel-format changes the host. *)
Theorem environment_acknowledges (cmd payload : Z) (st : host) :
  ((environment_callback cmd payload st).1.1 = true <-> In cmd acknowledged) /\
  (cmd <> RETRO_ENVIRONMENT_SET_PIXEL_FORMAT -> (environment_callback cmd payload st).2 = st).
Proof.
  split.
  - unfold environment_callback, acknowledged.
    repeat match goal with
           | |- context [?a =? ?b] => destruct (Z.eqb_spec a b) as [->|?]
           end; cbn [fst snd orb In];
      unfold RETRO_ENVIRONMENT_GET_LOG_INTERFACE, RETRO_ENVIRONMENT_GET_CAN_DUPE,
        RETRO_ENVIRONMENT_SET_PIXEL_FORMAT, RETRO_ENVIRONMENT_GET_SYSTEM_DIRECTORY,
        RETRO_ENVIRONMENT_GET_SAVE_DIRECTORY, RETRO_ENVIRONMENT_GET_CORE_ASSETS_DIRECTORY,
        RETRO_ENVIRONMENT_SET_SUPPORT_NO_GAME, RETRO_ENVIRONMENT_SET_VARIABLES,
        RETRO_ENVIRONMENT_SET_CORE_OPTIONS_V2, RETRO_ENVIRONMENT_GET_VARIABLE_UPDATE,
        RETRO_ENVIRONMENT_GET_VARIABLE in *;
      (split; [intros Hres; try discriminate Hres; lia | intros Hin; try done; lia]).
  - intros Hcmd. rewrite environment_callback_state.
    by destruct (Z.eqb_spec cmd RETRO_ENVIRONMENT_SET_PIXEL_FORMAT).
Qed.

(** ** The video bridge, frame after frame *)

Lemma memcpy_front {A : Type} (dst src : list A) (n : nat) :
  (n <= length src)%nat -> (n <= length dst)%nat ->
  memcpy dst 0 src n = take n src ++ drop n dst.
Proof.
  intros Hsrc Hdst. unfold memcpy.
  rewrite list_inserts_middle by (rewrite length_take; lia).
  rewrite length_take. cbn [take app].
  by replace (0 + n `min` length src)%nat with n by lia.
Qed.

Lemma length_memcpy {A : Type} (dst src : list A) (off n : nat) :
  length (memcpy dst off src n) = length dst.
Proof. unfold memcpy. apply length_inserts. Qed.

Lemma video_refresh_frame_inv os data width height pitch st :
  frame_inv st -> frame_inv (video_refresh_callback os data width height pitch st).
Proof.
  intros Hinv. unfold video_refresh_callback. destruct data as [src|]; [|done].
  cbn [framebuffer_size with_video_width with_video_height with_video_pitch].
  destruct (framebuffer_size st <? size_mul height pitch).
  - cbn [framebuffer with_framebuffer with_framebuffer_size log with_trace].
    unfold malloc. destruct (malloc_ok os (size_mul height pitch));
      unfold frame_inv; cbn; [|done].
    rewrite length_memcpy, length_fresh.
    pose proof (size_mul_range height pitch). lia.
  - unfold frame_inv in *.
    cbn [framebuffer with_video_width with_video_height with_video_pitch].
    destruct (framebuffer st) as [fb|] eqn:Hfb; cbn; [|by rewrite Hfb].
    by rewrite length_memcpy.
Qed.

(** X9: after any frame with non-null data, if the host holds a framebuffer
    then its first [height * pitch] bytes are the frame's, padding included;
    the capacity never shrinks; and a frame that fits the capacity is copied
    in place, without a call to free or malloc, leaving the bytes behind it
    as they were. *)
Theorem video_refresh_delivers (os : platform) (src : list byte)
    (width height pitch : Z) (st : host) :
  frame_inv st ->
  (Z.to_nat (size_mul height pitch) <= length src)%nat ->
  framebuffer_size st
    <= framebuffer_size (video_refresh_callback os (Some src) width height pitch st) /\
  (forall fb',
     libretro_get_framebuffer (video_refresh_callback os (Some src) width height pitch st)
       = Some fb' ->
     take (Z.to_nat (size_mul height pitch)) fb'
       = take (Z.to_nat (size_mul height pitch)) src) /\
  (size_mul height pitch <= framebuffer_size st ->
   trace (video_refresh_callback os (Some src) width height pitch st) = trace st /\
   framebuffer_size (video_refresh_callback os (Some src) width height pitch st)
     = framebuffer_size st /\
   forall fb, framebuffer st = Some fb ->
     exists fb',
       libretro_get_framebuffer (video_refresh_callback os (Some src) width height pitch st)
         = Some fb' /\
       drop (Z.to_nat (size_mul height pitch)) fb'
         = drop (Z.to_nat (size_mul height pitch)) fb).
Proof.
  intros Hinv Hsrc. pose proof (size_mul_range height pitch) as Hreq.
  unfold video_refresh_callback, libretro_get_framebuffer.
  cbn [framebuffer_size with_video_width with_video_height with_video_pitch].
  destruct (Z.ltb_spec (framebuffer_size st) (size_mul height pitch)) as [Hgrow|Hfits].
  - cbn [framebuffer framebuffer_size with_framebuffer with_framebuffer_size log with_trace].
    unfold malloc. destruct (malloc_ok os (size_mul height pitch)).
    + cbn. split; [lia|]. split; [|lia].
      intros fb' [= <-].
      rewrite memcpy_front by (rewrite ?length_fresh; lia).
      rewrite take_app_length'; [done|]. rewrite length_take. lia.
    + cbn. split; [lia|]. split; [done | lia].
  - unfold frame_inv in Hinv.
    cbn [framebuffer with_video_width with_video_height with_video_pitch].
    destruct (framebuffer st) as [fb|] eqn:Hfb.
    + cbn. split; [lia|].
      rewrite memcpy_front by lia.
      split; [|intros _; split; [done|split; [done|]]].
      * intros fb' [= <-]. rewrite take_app_length'; [done|]. rewrite length_take. lia.
      * intros fb0 [= <-]. eexists. split; [done|].
        rewrite drop_app_length'; [done|]. rewrite length_take. lia.
    + cbn. rewrite ?Hfb. split; [lia|]. split; [done|]. intros _. by repeat split.
Qed.

(** A second, smaller frame delivered after the stub frame: its 8 bytes are
    the front of what the host then holds. *)
Lemma video_refresh_delivers_witness :
  take (Z.to_nat (size_mul 1 8))
       ([xff; xfe; xfd; xfc; xfb; xfa; xf9; xf8] ++ drop 8 stub_frame)
  = take (Z.to_nat (size_mul 1 8)) [xff; xfe; xfd; xfc; xfb; xfa; xf9; xf8].
Proof.
  destruct (video_refresh_delivers stub_os [xff; xfe; xfd; xfc; xfb; xfa; xf9; xf8] 2 1 8
              (video_refresh_callback stub_os (Some stub_frame) 2 4 8 stub_game_loaded))
    as (_ & Hfront & _).
  - vm_compute. reflexivity.
  - vm_compute. lia.
  - apply Hfront. vm_compute. reflexivity.
Defined.

(** ** The shapes hold in every reachable state *)

Lemma shape_inv_ext (st st' : host) :
  framebuffer st' = framebuffer st ->
  framebuffer_size st' = framebuffer_size st ->
  input_state st' = input_state st ->
  shape_inv st -> shape_inv st'.
Proof. unfold shape_inv, frame_inv, input_inv. by intros -> -> ->. Qed.

Lemma dispatch_shape_inv os cb st : shape_inv st -> shape_inv (dispatch os cb st).
Proof.
  intros Hinv. destruct cb; cbn [dispatch]; try done.
  - rewrite environment_callback_state.
    destruct (_ =? _); [by apply (shape_inv_ext st) | done].
  - destruct Hinv as [Hframe Hinput]. split; [by apply video_refresh_frame_inv|].
    unfold video_refresh_callback. destruct pixels as [src|]; [|done].
    cbn [framebuffer_size with_video_width with_video_height with_video_pitch].
    destruct (framebuffer_size st <? size_mul height pitch); cbn.
    + by destruct (malloc os (size_mul height pitch)).
    + by destruct (framebuffer st).
  - unfold audio_sample_callback. destruct (audio_buffer st); [|done].
    by destruct (audio_frames st <? MAX_AUDIO_FRAMES).
  - unfold audio_sample_batch_callback. destruct (audio_buffer st); [|done].
    by destruct (0 <? _).
Qed.

Lemma core_calls_back_shape_inv os after_init script st :
  shape_inv st -> shape_inv (core_calls_back os after_init script st).
Proof.
  revert st. induction script as [|cb script IH]; intros st Hinv; [done|].
  unfold core_calls_back in *. cbn [foldl]. apply IH.
  destruct (holds_callback after_init (syms st) cb); [by apply dispatch_shape_inv | done].
Qed.

Lemma hand_over_shape_inv setter entry st :
  shape_inv st -> shape_inv (hand_over setter entry st).
Proof. unfold hand_over. by destruct (bound setter). Qed.

Lemma unload_core_input_state st :
  input_state (libretro_unload_core st) = input_state st.
Proof.
  unfold libretro_unload_core.
  assert (Hpre : input_state (if game_loaded st then libretro_unload_game st else st)
                 = input_state st).
  { destruct (game_loaded st); [|done]. unfold libretro_unload_game. by destruct (_ && _ && _). }
  rewrite <- Hpre.
  generalize (if game_loaded st then libretro_unload_game st else st). intros st1.
  by destruct (core_handle st1) as [h|]; [destruct (bound (core_deinit (syms st1)))|].
Qed.

Lemma unload_core_shape_inv st : shape_inv st -> shape_inv (libretro_unload_core st).
Proof.
  intros [_ Hinput]. destruct (unload_core_releases st) as (_ & _ & Hfb & _).
  split; [unfold frame_inv; by rewrite Hfb|].
  unfold input_inv. by rewrite unload_core_input_state.
Qed.

Lemma load_core_shape_inv os file st :
  shape_inv st -> shape_inv (libretro_load_core os file st).2.
Proof.
  intros Hinv. unfold libretro_load_core.
  assert (Hpre : shape_inv (if non_null (core_handle st) then libretro_unload_core st else st)).
  { destruct (non_null (core_handle st)); [by apply unload_core_shape_inv | done]. }
  generalize dependent (if non_null (core_handle st) then libretro_unload_core st else st).
  intros st1 Hpre.
  destruct (dlopen os file) as [so|]; [|by apply (shape_inv_ext st1)].
  cbn [syms with_syms with_core_handle log with_trace].
  destruct (negb (bound (core_init (dl_exports so))) || _ || _ || _);
    [by apply (shape_inv_ext st1)|].
  cbn [snd].
  match goal with
  | |- shape_inv (with_audio_buffer ?b (log ?e ?s)) =>
      assert (Hs : shape_inv s); [|by apply (shape_inv_ext s)]
  end.
  destruct (core_get_system_info (dl_exports so));
    [eapply shape_inv_ext; [reflexivity..|] |];
    repeat apply hand_over_shape_inv;
    (destruct (core_init (dl_exports so)); [apply core_calls_back_shape_inv|]);
    apply hand_over_shape_inv; by apply (shape_inv_ext st1).
Qed.

Lemma read_content_shape_inv os file st :
  shape_inv st -> shape_inv (read_content os file st).2.
Proof.
  unfold read_content.
  destruct (need_fullpath (system_info st)); [done|].
  destruct (read_file os file) as [bytes|]; [|done].
  by destruct (malloc_ok os _).
Qed.

Lemma load_game_shape_inv os file st :
  shape_inv st -> shape_inv (libretro_load_game os file st).2.
Proof.
  intros Hinv. unfold libretro_load_game.
  destruct (core_handle st) as [h|]; [|done].
  destruct (core_load_game (syms st)) as [load|]; [|done].
  pose proof (read_content_shape_inv os file st Hinv) as Hinv1.
  set (st1 := (read_content os file st).2) in *.
  set (game := (read_content os file st).1).
  set (st2 := core_calls_back os true (load game).2 (log (EvCall "retro_load_game") st1)).
  assert (Hinv2 : shape_inv st2).
  { apply core_calls_back_shape_inv. by apply (shape_inv_ext st1). }
  set (st3 := if non_null (data game) then log (EvFree ContentStorage true) st2 else st2).
  assert (Hinv3 : shape_inv st3) by (unfold st3; by destruct (non_null (data game))).
  destruct ((load game).1); cbn [snd]; [|done].
  cbn [syms with_game_loaded].
  destruct (core_get_system_av_info (syms st3)); cbn;
    destruct (bound (core_set_controller_port_device _));
    by apply (shape_inv_ext st3).
Qed.

Lemma shape_inv_step os c st : shape_inv st -> shape_inv (step os c st).
Proof.
  intros Hinv. destruct c; cbn [step].
  - destruct Hinv as [Hframe _]. split; [done | apply clear_input_inv].
  - unfold libretro_deinit. destruct (non_null (core_handle st)); [|done].
    by apply unload_core_shape_inv.
  - by apply load_core_shape_inv.
  - by apply unload_core_shape_inv.
  - by apply load_game_shape_inv.
  - unfold libretro_unload_game. by destruct (_ && _ && _).
  - unfold libretro_run_frame.
    destruct (core_handle st) as [h|]; [|done].
    destruct (core_run (syms st)) as [script|]; [|done].
    destruct (game_loaded st); [|done].
    apply core_calls_back_shape_inv. by apply (shape_inv_ext st).
  - unfold libretro_reset. by destruct (_ && _ && _).
  - by apply (shape_inv_ext st).
  - destruct Hinv as [Hframe Hinput]. split; [|by apply set_button_inv].
    unfold libretro_set_button. by destruct (_ && _).
  - destruct Hinv as [Hframe Hinput]. split; [|by apply set_button_inv].
    unfold libretro_set_input, libretro_set_button. by destruct (_ && _).
  - destruct Hinv as [Hframe _]. split; [done | apply clear_input_inv].
  - unfold libretro_get_save_state_size.
    by destruct (core_handle st), (core_serialize_size (syms st)).
  - unfold libretro_save_state.
    by destruct (core_handle st), (core_serialize (syms st)), (game_loaded st).
  - unfold libretro_load_state.
    by destruct (core_handle st), (core_unserialize (syms st)), (game_loaded st).
  - unfold libretro_get_sram.
    by destruct (core_handle st), (core_get_memory_data (syms st)).
  - unfold libretro_get_sram_size.
    by destruct (core_handle st), (core_get_memory_size (syms st)).
  - by destruct dir.
  - by destruct dir.
Qed.

(** X10: in every state the host can reach, on any platform and with any
    core, the audio queue holds between 0 and 8192 frames, an allocated audio
    buffer has 16384 cells, a host without a loaded core holds neither audio
    buffer nor framebuffer, a framebuffer has exactly the recorded capacity,
    and the input matrix is 4 rows of 16 cells. *)
Theorem reachable_invariants (st : host) :
  reachable st ->
  0 <= libretro_get_audio_frames st <= MAX_AUDIO_FRAMES /\
  (forall buf, libretro_get_audio_buffer st = Some buf ->
     Z.of_nat (length buf) = 2 * MAX_AUDIO_FRAMES) /\
  (libretro_is_loaded st = false ->
     libretro_get_audio_buffer st = None /\ libretro_get_framebuffer st = None) /\
  (forall fb, libretro_get_framebuffer st = Some fb ->
     Z.of_nat (length fb) = framebuffer_size st) /\
  length (input_state st) = Z.to_nat MAX_PORTS /\
  Forall (fun row => length row = Z.to_nat MAX_BUTTONS) (input_state st).
Proof.
  intros Hreach.
  assert (Hshape : shape_inv st).
  { induction Hreach as [|os c st _ IH|s st _ IH _].
    - split; [done | apply input_inv_initial].
    - by apply shape_inv_step.
    - by apply (shape_inv_ext st). }
  pose proof (reachable_host_inv st Hreach) as Hhost.
  destruct Hhost as [[Hcount Hcells] Hstore], Hshape as [Hframe [Hrows Hrow]].
  unfold libretro_get_audio_frames, libretro_get_audio_buffer, libretro_is_loaded,
    libretro_get_framebuffer, storage_inv, frame_inv in *.
  split; [exact Hcount|].
  split; [intros buf Hbuf; by rewrite Hbuf in Hcells|].
  split; [|split; [intros fb Hfb; by rewrite Hfb in Hframe | by split]].
  intros Hunloaded. destruct (core_handle st); [discriminate Hunloaded | exact Hstore].
Qed.

(** One frame of the stub core's game. *)
Lemma reachable_invariants_witness :
  0 <= libretro_get_audio_frames (step stub_os CallRunFrame stub_game_loaded)
    <= MAX_AUDIO_FRAMES.
Proof.
  apply (reachable_invariants (step stub_os CallRunFrame stub_game_loaded)).
  unfold stub_game_loaded, stub_core_loaded.
  do 3 apply reachable_step. apply reachable_initial.
Defined.

(** Unloading the stub core under a running game. *)
Lemma lifecycle_inv_step_witness :
  lifecycle_inv (step stub_os CallUnloadCore stub_game_loaded).
Proof.
  apply (lifecycle_inv_step stub_os CallUnloadCore stub_game_loaded).
  - intros _. vm_compute. discriminate.
  - intros _. vm_compute. reflexivity.
Defined.


(** ** Loading a game *)

Lemma content_frees_app (t u : list event) :
  content_frees (t ++ u) = (content_frees t + content_frees u)%nat.
Proof. unfold content_frees. by rewrite List.filter_app, length_app. Qed.

Lemma dispatch_content_frees os cb st :
  content_frees (trace (dispatch os cb st)) = content_frees (trace st).
Proof.
  destruct cb; cbn [dispatch]; try done.
  - rewrite environment_callback_state. by destruct (_ =? _).
  - unfold video_refresh_callback. destruct pixels as [src|]; [|done].
    cbn [framebuffer_size with_video_width with_video_height with_video_pitch].
    destruct (framebuffer_size st <? size_mul height pitch).
    + cbn [framebuffer with_framebuffer with_framebuffer_size].
      destruct (malloc os (size_mul height pitch)); cbn -[content_frees];
        rewrite <- app_assoc, content_frees_app; cbn; lia.
    + cbn [framebuffer with_video_width with_video_height with_video_pitch].
      by destruct (framebuffer st).
  - unfold audio_sample_callback. destruct (audio_buffer st); [|done].
    by destruct (audio_frames st <? MAX_AUDIO_FRAMES).
  - unfold audio_sample_batch_callback. destruct (audio_buffer st); [|done].
    by destruct (0 <? _).
Qed.

Lemma core_calls_back_content_frees os after_init script st :
  content_frees (trace (core_calls_back os after_init script st)) = content_frees (trace st).
Proof.
  revert st. induction script as [|cb script IH]; intros st; [done|].
  unfold core_calls_back in *. cbn [foldl]. rewrite IH.
  destruct (holds_callback after_init (syms st) cb); [apply dispatch_content_frees | done].
Qed.

(** X12: [libretro_load_game] returns the core's verdict on the content it
    is handed, and whichever way the verdict goes the buffer that held the
    file is freed exactly once.  A core that wants the contents gets the
    whole file and its length; a core that wants the path only gets a null
    pointer and size 0, and then nothing is freed.  When the buffer for the
    contents cannot be allocated the core is still called, with a null
    pointer and the file's length. *)
Theorem load_game_content os file st h load :
  core_handle st = Some h ->
  core_load_game (syms st) = Some load ->
  (need_fullpath (system_info st) = false ->
   forall bytes,
     read_file os file = Some bytes ->
     malloc_ok os (Z.of_nat (length bytes)) = true ->
     (libretro_load_game os file st).1
       = (load {| path := file; data := Some bytes;
                  size := Z.of_nat (length bytes); meta := None |}).1 /\
     content_frees (trace (libretro_load_game os file st).2)
       = S (content_frees (trace st))) /\
  (need_fullpath (system_info st) = false ->
   forall bytes,
     read_file os file = Some bytes ->
     malloc_ok os (Z.of_nat (length bytes)) = false ->
     (libretro_load_game os file st).1
       = (load {| path := file; data := None;
                  size := Z.of_nat (length bytes); meta := None |}).1 /\
     content_frees (trace (libretro_load_game os file st).2) = content_frees (trace st)) /\
  (need_fullpath (system_info st) = true ->
   (libretro_load_game os file st).1
     = (load {| path := file; data := None; size := 0; meta := None |}).1 /\
   content_frees (trace (libretro_load_game os file st).2) = content_frees (trace st)).
Proof.
  intros Hh Hload.
  assert (Htail : forall game (st2 : host) (frees : nat),
            content_frees (trace st2) = frees ->
            content_frees
              (trace (if (load game).1
                      then (true,
                            let st := with_game_loaded true st2 in
                            let st :=
                              match core_get_system_av_info (syms st) with
                              | Some av_info =>
                                let st := log (EvCall "retro_get_system_av_info") st in
                                let st := with_video_width (base_width (geometry av_info)) st in
                                let st := with_video_height (base_height (geometry av_info)) st in
                                let st := with_video_fps (fps (timing av_info)) st in
                                with_audio_sample_rate (sample_rate (timing av_info)) st
                              | None => st
                              end in
                            if bound (core_set_controller_port_device (syms st)) then
                              log (EvCall "retro_set_controller_port_device")
                                (log (EvCall "retro_set_controller_port_device") st)
                            else st)
                      else (false, st2)).2) = frees).
  { intros game st2 frees Hfrees. destruct ((load game).1); cbn [snd]; [|done].
    cbn [syms with_game_loaded].
    destruct (core_get_system_av_info (syms st2)); cbn -[content_frees];
      destruct (bound (core_set_controller_port_device _)); cbn -[content_frees];
      rewrite ?content_frees_app; cbn; lia. }
  split; [|split].
  - intros Hfull bytes Hread Hserved.
    unfold libretro_load_game. rewrite Hh, Hload.
    unfold read_content. rewrite Hfull, Hread, Hserved. cbn [fst snd data non_null].
    split; [by destruct ((load _).1)|].
    apply Htail. cbn [trace log with_trace].
    rewrite content_frees_app, core_calls_back_content_frees. cbn [trace log with_trace].
    rewrite !content_frees_app. cbn. lia.
  - intros Hfull bytes Hread Hrefused.
    unfold libretro_load_game. rewrite Hh, Hload.
    unfold read_content. rewrite Hfull, Hread, Hrefused. cbn [fst snd data non_null].
    split; [by destruct ((load _).1)|].
    apply Htail. rewrite core_calls_back_content_frees. cbn [trace log with_trace].
    rewrite !content_frees_app. cbn. lia.
  - intros Hfull.
    unfold libretro_load_game. rewrite Hh, Hload.
    unfold read_content. rewrite Hfull. cbn [fst snd data non_null].
    split; [by destruct ((load _).1)|].
    apply Htail. rewrite core_calls_back_content_frees. cbn [trace log with_trace].
    rewrite !content_frees_app. cbn. lia.
Qed.

(** The stub core wants the contents of the game file. *)
Lemma load_game_content_witness :
  (libretro_load_game stub_os "game.rom" stub_core_loaded).1 = true /\
  content_frees (trace (libretro_load_game stub_os "game.rom" stub_core_loaded).2) = 1%nat.
Proof.
  destruct (load_game_content stub_os "game.rom" stub_core_loaded 4096 (fun game => (true, [])))
    as (Hcontent & _ & _).
  - vm_compute. reflexivity.
  - vm_compute. reflexivity.
  - destruct (Hcontent ltac:(vm_compute; reflexivity) [x4e; x45; x53; x1a]) as [Hret Hfrees].
    + vm_compute. reflexivity.
    + vm_compute. reflexivity.
    + split; [by rewrite Hret | rewrite Hfrees; vm_compute; reflexivity].
Defined.

(** X13: after [libretro_load_game] the game flag is set exactly when the
    core accepted the content or a game was loaded already; handle and
    symbols are untouched; an accepted load leaves the host GameLoaded with
    width, height, fps and sample rate taken from the core's
    [retro_get_system_av_info] when that is exported; and without a core the
    call returns false and does nothing. *)
Theorem load_game_outcome os file st :
  game_loaded (libretro_load_game os file st).2
    = (libretro_load_game os file st).1 || game_loaded st /\
  core_handle (libretro_load_game os file st).2 = core_handle st /\
  syms (libretro_load_game os file st).2 = syms st /\
  ((libretro_load_game os file st).1 = true ->
   lifecycle_of (libretro_load_game os file st).2 = GameLoaded /\
   forall av_info, core_get_system_av_info (syms st) = Some av_info ->
     libretro_get_width (libretro_load_game os file st).2 = base_width (geometry av_info) /\
     libretro_get_height (libretro_load_game os file st).2 = base_height (geometry av_info) /\
     libretro_get_fps (libretro_load_game os file st).2 = fps (timing av_info) /\
     libretro_get_sample_rate (libretro_load_game os file st).2
       = sample_rate (timing av_info)) /\
  (lifecycle_of st = Unloaded -> libretro_load_game os file st = (false, st)).
Proof.
  unfold libretro_load_game, lifecycle_of.
  destruct (core_handle st) as [h|] eqn:Hh;
    [|repeat split; done].
  destruct (core_load_game (syms st)) as [load|];
    [|repeat split; try done; by destruct (game_loaded st)].
  destruct (read_content_frame os file st) as (Hh1 & Hs1 & _).
  set (st1 := (read_content os file st).2) in *.
  set (game := (read_content os file st).1).
  set (st2 := core_calls_back os true (load game).2 (log (EvCall "retro_load_game") st1)).
  destruct (core_calls_back_same_core os true (load game).2 (log (EvCall "retro_load_game") st1))
    as (Hh2 & Hg2 & Hs2).
  fold st2 in Hh2, Hg2, Hs2. cbn in Hh2, Hg2, Hs2.
  set (st3 := if non_null (data game) then log (EvFree ContentStorage true) st2 else st2).
  assert (Hst3 : core_handle st3 = Some h /\ syms st3 = syms st /\
                 game_loaded st3 = game_loaded st1).
  { unfold st3. destruct (non_null (data game)); cbn; repeat split; congruence. }
  destruct Hst3 as (Hh3 & Hs3 & Hg3).
  assert (Hg1 : game_loaded st1 = game_loaded st).
  { unfold st1, read_content.
    destruct (need_fullpath (system_info st)); [done|].
    destruct (read_file os file); [|done]. by destruct (malloc_ok os _). }
  destruct ((load game).1); cbn [fst snd orb].
  - cbn [syms with_game_loaded]. rewrite Hs3.
    destruct (core_get_system_av_info (syms st)) as [av|]; cbn;
      destruct (bound (core_set_controller_port_device _)); cbn;
      rewrite ?Hh3; repeat split; try done; try congruence;
      by destruct (game_loaded st).
  - rewrite Hh3, Hs3, Hg3, Hg1. repeat split; try done; by destruct (game_loaded st).
Qed.

(** ** Unloading twice *)

(** Two hosts with the same statics and the same trace are the same. *)
Lemma host_ext (a b : host) :
  core_handle a = core_handle b -> game_loaded a = game_loaded b ->
  pixel_format a = pixel_format b -> system_directory a = system_directory b ->
  save_directory a = save_directory b -> video_width a = video_width b ->
  video_height a = video_height b -> video_pitch a = video_pitch b ->
  video_fps a = video_fps b -> framebuffer a = framebuffer b ->
  framebuffer_size a = framebuffer_size b -> audio_sample_rate a = audio_sample_rate b ->
  audio_buffer a = audio_buffer b -> audio_frames a = audio_frames b ->
  input_state a = input_state b -> syms a = syms b ->
  system_info a = system_info b -> trace a = trace b ->
  a = b.
Proof. destruct a, b; cbn; intros; by subst. Qed.

Lemma unload_core_system_info st : system_info (libretro_unload_core st) = zero_system_info.
Proof. reflexivity. Qed.

(** X14: [libretro_unload_core] always ends Unloaded, with no buffers, zero
    capacity and empty name, version and extensions; and it is idempotent: a
    second unload calls neither the core nor dlclose, it only frees two null
    pointers, and a [libretro_deinit] after it does nothing at all. *)
Theorem unload_core_idempotent (st : host) :
  lifecycle_of (libretro_unload_core st) = Unloaded /\
  libretro_is_loaded (libretro_unload_core st) = false /\
  libretro_get_framebuffer (libretro_unload_core st) = None /\
  libretro_get_audio_buffer (libretro_unload_core st) = None /\
  framebuffer_size (libretro_unload_core st) = 0 /\
  libretro_get_name (libretro_unload_core st) = EmptyString /\
  libretro_get_version (libretro_unload_core st) = EmptyString /\
  libretro_get_extensions (libretro_unload_core st) = EmptyString /\
  libretro_unload_core (libretro_unload_core st)
    = log (EvFree AudioStorage false) (log (EvFree FrameStorage false) (libretro_unload_core st)) /\
  libretro_deinit (libretro_unload_core st) = libretro_unload_core st.
Proof.
  destruct (unload_core_releases st) as (Hh & Hab & Hfb & Hsize & _).
  pose proof (unload_core_system_info st) as Hinfo.
  unfold lifecycle_of, libretro_is_loaded, libretro_get_framebuffer, libretro_get_audio_buffer,
    libretro_get_name, libretro_get_version, libretro_get_extensions, libretro_deinit.
  rewrite Hh, Hab, Hfb, Hsize, Hinfo. cbn [non_null].
  repeat apply conj; try reflexivity.
  generalize dependent (libretro_unload_core st). intros u Hh Hab Hfb Hsize Hinfo.
  unfold libretro_unload_core at 1.
  assert (Hpre : (if game_loaded u then libretro_unload_game u else u) = u).
  { destruct (game_loaded u); [|done]. unfold libretro_unload_game. by rewrite Hh. }
  rewrite Hpre, Hh.
  apply host_ext; cbn; rewrite ?Hfb, ?Hab; cbn; congruence.
Qed.

(** ** Save states in files *)

Lemma disk_put_same file content d : disk_put file content d file = Some content.
Proof. unfold disk_put. by rewrite String.eqb_refl. Qed.

Lemma disk_put_other file content d other :
  other <> file -> disk_put file content d other = d other.
Proof.
  intros Hother. unfold disk_put.
  destruct (String.eqb_spec other file); [done | reflexivity].
Qed.

Lemma read_state_file_whole os io file d content :
  d file = Some content ->
  malloc_ok os (Z.of_nat (length content)) = true ->
  Z.of_nat (length content) <= fread_limit io ->
  read_state_file os io file d = Some content.
Proof.
  intros Hfile Hserved Hlimit. unfold read_state_file, malloc.
  rewrite Hfile, Hserved.
  rewrite Z.min_l, Z.eqb_refl by lia. f_equal.
  rewrite memcpy_whole by (rewrite ?length_fresh; lia).
  apply take_ge. lia.
Qed.

(** What [read_state_file] returns is the file, whole. *)
Lemma read_state_file_content os io file d buffer :
  read_state_file os io file d = Some buffer -> d file = Some buffer.
Proof.
  unfold read_state_file, malloc. intros Hread.
  destruct (d file) as [content|]; [|done].
  destruct (malloc_ok os _); [|done].
  destruct (_ =? _); [|done].
  injection Hread as <-.
  rewrite memcpy_whole by (rewrite ?length_fresh; lia).
  by rewrite take_ge by lia.
Qed.

(** X15: a save state written by [libretro_save_state_to_file] and read back
    by [libretro_load_state_from_file] reaches the core as the image it
    serialized, byte for byte and with nothing added: when the core reports
    a positive size and serializes successfully, the buffer is served and
    the file takes the whole write, the save returns true, the file holds
    exactly the image and no other file is touched; a later load from that
    disk, in any state with a game loaded and by any platform that can read
    the file, calls [retro_unserialize] with exactly that image and its
    size, and returns the core's own verdict. *)
Theorem save_state_file_round_trip os io image file d st h size :
  core_handle st = Some h ->
  game_loaded st = true ->
  core_serialize_size (syms st) = Some size ->
  0 < size ->
  core_serialize (syms st) = Some true ->
  malloc_ok os size = true ->
  can_create io file = true ->
  size <= fwrite_limit io ->
  Z.of_nat (length image) = size ->
  (libretro_save_state_to_file os io image file d st).1.1 = true /\
  (libretro_save_state_to_file os io image file d st).1.2 file = Some image /\
  (forall other, other <> file ->
     (libretro_save_state_to_file os io image file d st).1.2 other = d other) /\
  (forall os' io' st' h' verdict,
     malloc_ok os' size = true -> size <= fread_limit io' ->
     core_handle st' = Some h' -> game_loaded st' = true ->
     core_unserialize (syms st') = Some verdict ->
     libretro_load_state_from_file os' io' file
       (libretro_save_state_to_file os io image file d st).1.2 st'
     = (verdict, log (EvCall "retro_unserialize") st', Some (image, size))).
Proof.
  intros Hh Hg Hsize Hpos Hser Hserved Hcreate Hlimit Himage.
  assert (Hsave : libretro_save_state_to_file os io image file d st
                  = (true, disk_put file image d,
                     log (EvCall "retro_serialize") (log (EvCall "retro_serialize_size") st))).
  { unfold libretro_save_state_to_file, libretro_get_save_state_size.
    rewrite Hh, Hg, Hsize. cbn [non_null negb orb fst snd].
    destruct (Z.eqb_spec size 0) as [?|_]; [lia|].
    unfold malloc. rewrite Hserved.
    unfold libretro_save_state. cbn [core_handle syms game_loaded log with_trace].
    rewrite Hh, Hser, Hg. cbn [fst snd].
    unfold write_file. rewrite Hcreate, !Z.min_l, Z.eqb_refl by lia.
    rewrite memcpy_whole by (rewrite ?length_fresh; lia).
    rewrite take_take, Nat.min_id, take_ge by lia. reflexivity. }
  rewrite Hsave. cbn [fst snd].
  split; [done|]. split; [apply disk_put_same|]. split; [by intros; apply disk_put_other|].
  intros os' io' st' h' verdict Hserved' Hlimit' Hh' Hg' Hun.
  assert (Hread : read_state_file os' io' file (disk_put file image d) = Some image).
  { apply read_state_file_whole; [apply disk_put_same | by rewrite Himage | lia]. }
  unfold libretro_load_state_from_file, libretro_load_state, unserialize_arguments.
  rewrite Hh', Hg', Hread, Hun, Himage. reflexivity.
Qed.

(** ** What a save or load reports *)

(** X16: [libretro_save_state_to_file] returns true exactly when a game is
    loaded, the core announces a size other than 0, the buffer is served,
    [retro_serialize] succeeds, the file can be created and fwrite reports
    the whole size.  The result of fclose plays no part: the file then holds
    the front of the buffer, as many bytes as the file took, which is the
    whole state only if the file took them all.  Without a loaded game the
    call returns false and touches nothing; when the file cannot be created
    the disk is as before; and no file other than the one named is ever
    changed. *)
Theorem save_state_to_file_reports_fwrite os io image file d st :
  ((libretro_save_state_to_file os io image file d st).1.1 = true <->
   lifecycle_of st = GameLoaded /\
   exists size,
     core_serialize_size (syms st) = Some size /\ size <> 0 /\
     malloc_ok os size = true /\
     core_serialize (syms st) = Some true /\
     can_create io file = true /\
     size <= fwrite_limit io + Z.max 0 (stream_buffer io)) /\
  (forall size,
     (libretro_save_state_to_file os io image file d st).1.1 = true ->
     core_serialize_size (syms st) = Some size ->
     exists content,
       (libretro_save_state_to_file os io image file d st).1.2 file = Some content /\
       length content = Z.to_nat (Z.min size (fwrite_limit io)) /\
       (Z.of_nat (length image) = size ->
        content = take (Z.to_nat (fwrite_limit io)) image)) /\
  (lifecycle_of st <> GameLoaded ->
   libretro_save_state_to_file os io image file d st = (false, d, st)) /\
  (can_create io file = false ->
   (libretro_save_state_to_file os io image file d st).1 = (false, d)) /\
  (forall other, other <> file ->
     (libretro_save_state_to_file os io image file d st).1.2 other = d other).
Proof.
  unfold libretro_save_state_to_file, lifecycle_of, libretro_get_save_state_size.
  destruct (core_handle st) as [h|] eqn:Hh; cbn [non_null negb orb];
    [|repeat split; try done; by intros []].
  destruct (game_loaded st) eqn:Hg; cbn [negb fst snd];
    [|repeat split; try done; by intros []].
  destruct (core_serialize_size (syms st)) as [size|]; cbn [fst snd];
    [|repeat split; try done; by intros (_ & ? & ? & _)].
  destruct (Z.eqb_spec size 0) as [Hzero|Hsome].
  { repeat split; try done. intros (_ & ? & [= <-] & ? & _). done. }
  unfold malloc. destruct (malloc_ok os size) eqn:Hserved.
  2:{ repeat split; try done. intros (_ & ? & [= <-] & _ & ? & _). congruence. }
  unfold libretro_save_state. cbn [core_handle syms game_loaded log with_trace].
  rewrite Hh, Hg.
  destruct (core_serialize (syms st)) as [[|]|] eqn:Hser; cbn [fst snd];
    try (repeat split; try done; by intros (_ & ? & _ & _ & _ & ? & _)).
  unfold write_file. destruct (can_create io file) eqn:Hcreate.
  2:{ repeat split; try done. by intros (_ & ? & _ & _ & _ & _ & ? & _). }
  cbn [fst snd].
  split; [|split; [|split; [done|split; [done|by intros; apply disk_put_other]]]].
  - split.
    + intros Hfull%Z.eqb_eq. split; [done|]. exists size. repeat split; try done. lia.
    + intros (_ & size' & [= <-] & _ & _ & _ & _ & Hroom).
      apply Z.eqb_eq. lia.
  - intros size' _ [= <-]. eexists. split; [apply disk_put_same|].
    split.
    + rewrite length_take, length_memcpy, length_fresh. lia.
    + intros Himage.
      rewrite memcpy_whole by (rewrite ?length_fresh; lia).
      rewrite take_take.
      destruct (Z.le_ge_cases size (fwrite_limit io)).
      * by rewrite !take_ge by lia.
      * f_equal. lia.
Qed.

(** A 1024-byte state saved to a file that takes 512 bytes: the stream
    buffers the write, fwrite reports 1024, and the call returns true with
    half the state in the file. *)
Lemma save_state_to_file_reports_fwrite_witness :
  (libretro_save_state_to_file stub_os full_disk_stdio (replicate (Z.to_nat 1024) x2a)
     "slot1.state" empty_disk stub_game_loaded).1.1 = true /\
  exists content,
    (libretro_save_state_to_file stub_os full_disk_stdio (replicate (Z.to_nat 1024) x2a)
       "slot1.state" empty_disk stub_game_loaded).1.2 "slot1.state"%string = Some content /\
    length content = Z.to_nat 512.
Proof.
  destruct (save_state_to_file_reports_fwrite stub_os full_disk_stdio
              (replicate (Z.to_nat 1024) x2a) "slot1.state" empty_disk stub_game_loaded)
    as (Htrue & Hfile & _).
  assert (Hresult : (libretro_save_state_to_file stub_os full_disk_stdio
                       (replicate (Z.to_nat 1024) x2a)
                       "slot1.state" empty_disk stub_game_loaded).1.1 = true).
  { apply Htrue. split; [vm_compute; reflexivity|].
    exists 1024. repeat apply conj; vm_compute; (reflexivity || discriminate). }
  split; [exact Hresult|].
  destruct (Hfile 1024 Hresult) as (content & Hcontent & Hlength & _);
    [vm_compute; reflexivity|].
  exists content. split; [exact Hcontent | exact Hlength].
Defined.

(** X17: [libretro_load_state_from_file] calls the core at most once, and
    only with a game loaded and the whole file read, which is then what the
    core is handed; a missing file, a refused buffer or a short read give
    false without any call. *)
Theorem load_state_from_file_guarded os io file d st :
  (libretro_load_state_from_file os io file d st = (false, st, None) \/
   lifecycle_of st = GameLoaded /\
   (exists content, read_state_file os io file d = Some content /\ d file = Some content /\
      (libretro_load_state_from_file os io file d st).2
        = Some (content, Z.of_nat (length content))) /\
   exists verdict,
     core_unserialize (syms st) = Some verdict /\
     (libretro_load_state_from_file os io file d st).1
       = (verdict, log (EvCall "retro_unserialize") st)) /\
  (d file = None -> libretro_load_state_from_file os io file d st = (false, st, None)) /\
  (forall content, d file = Some content ->
     malloc_ok os (Z.of_nat (length content)) = false
     \/ fread_limit io < Z.of_nat (length content) ->
     libretro_load_state_from_file os io file d st = (false, st, None)).
Proof.
  unfold libretro_load_state_from_file, lifecycle_of, libretro_load_state,
    unserialize_arguments.
  destruct (core_handle st) as [h|]; cbn [non_null negb orb];
    [|split; [by left | by split]].
  destruct (game_loaded st); cbn [negb]; [|split; [by left | by split]].
  split; [|split].
  - destruct (read_state_file os io file d) as [buffer|] eqn:Hread; [|by left].
    destruct (core_unserialize (syms st)) as [verdict|]; [|by left].
    right. split; [done|]. split; [|by exists verdict].
    exists buffer. split; [done|]. split; [|done].
    by apply read_state_file_content in Hread.
  - intros Hmissing. unfold read_state_file. by rewrite Hmissing.
  - intros content Hfile Hfault. unfold read_state_file, malloc. rewrite Hfile.
    destruct (malloc_ok os _); [|done].
    destruct Hfault as [?|Hshort]; [done|].
    destruct (Z.eqb_spec (Z.min (Z.of_nat (length content)) (fread_limit io))
                         (Z.of_nat (length content))); [lia | done].
Qed.

(** The stub core's 1024-byte state saved to an empty disk and loaded again. *)
Lemma save_state_file_round_trip_witness :
  (libretro_load_state_from_file stub_os stub_stdio "slot1.state"
     (libretro_save_state_to_file stub_os stub_stdio (replicate (Z.to_nat 1024) x2a)
        "slot1.state" empty_disk stub_game_loaded).1.2
     stub_game_loaded).2
  = Some (replicate (Z.to_nat 1024) x2a, 1024).
Proof.
  destruct (save_state_file_round_trip stub_os stub_stdio (replicate (Z.to_nat 1024) x2a)
              "slot1.state" empty_disk stub_game_loaded 4096 1024)
    as (_ & _ & _ & Hload).
  - vm_compute. reflexivity.
  - vm_compute. reflexivity.
  - vm_compute. reflexivity.
  - vm_compute. reflexivity.
  - vm_compute. reflexivity.
  - vm_compute. reflexivity.
  - vm_compute. reflexivity.
  - vm_compute. discriminate.
  - vm_compute. reflexivity.
  - rewrite (Hload stub_os stub_stdio stub_game_loaded 4096%N true).
    + reflexivity.
    + vm_compute. reflexivity.
    + vm_compute. discriminate.
    + vm_compute. reflexivity.
    + vm_compute. reflexivity.
    + vm_compute. reflexivity.
Defined.

(** ** Battery memory in files *)





(** X19: the SRAM file operations do nothing when there is nothing to do:
    with a null path, no loaded core, a null region or a size of zero the
    disk and the core's memory are as before, and [libretro_load_sram] of a
    missing file leaves the core's memory alone.  Neither operation ever
    touches the handle or the game flag. *)
Theorem sram_silent_no_ops io file d st :
  (file = None \/ core_handle st = None \/ (libretro_get_sram st).1 = None
   \/ (libretro_get_sram_size st).1 <= 0 ->
   (libretro_save_sram io file d st).1 = d /\
   syms (libretro_load_sram io file d st) = syms st) /\
  (forall f, file = Some f -> d f = None ->
     syms (libretro_load_sram io file d st) = syms st) /\
  core_handle (libretro_save_sram io file d st).2 = core_handle st /\
  game_loaded (libretro_save_sram io file d st).2 = game_loaded st /\
  core_handle (libretro_load_sram io file d st) = core_handle st /\
  game_loaded (libretro_load_sram io file d st) = game_loaded st.
Proof.
  unfold libretro_save_sram, libretro_load_sram, libretro_get_sram, libretro_get_sram_size.
  destruct (core_handle st) as [h|] eqn:Hh.
  - destruct (core_get_memory_data (syms st)) as [[region|]|] eqn:Hdata;
      cbn [fst snd core_handle syms log with_trace]; rewrite ?Hh;
      destruct (core_get_memory_size (syms st)) as [size|] eqn:Hsize;
      cbn [fst snd core_handle syms log with_trace];
      destruct file as [f|]; try (repeat split; done);
      try (destruct (Z.ltb_spec 0 size); [|repeat split; done]);
      try (destruct (Z.ltb_spec 0 0) as [?|_]; [lia|]; repeat split; done).
    unfold write_file.
    destruct (can_create io f), (d f) eqn:Hf; cbn;
      (split; [intros [?|[?|[?|?]]]; try done; lia|]);
      (split; [intros f' [= <-] Hnone; congruence|]); by rewrite ?Hh.
  - cbn [fst snd]. rewrite Hh. cbn [fst snd]. by destruct file.
Qed.

(** ** Core info *)

(** X20: [libretro_get_system_av_info] ignores a null pointer and otherwise
    always fills the structure.  While a game is loaded and the core exports
    [retro_get_system_av_info] the answer is the core's own, obtained by one
    call.  In every other case the core is not called and the answer is made
    of the cached values: width and height, with 320 in place of a zero width
    and 240 in place of a zero height, repeated as the maximum; an aspect
    ratio of 0; the cached frame rate and sample rate when positive, and 60
    and 44100 when not (NaN included).  So the fallback is never zero-sized
    and its rates are positive. *)
Theorem av_info_never_degenerate (st : host) :
  libretro_get_system_av_info false st = (None, st) /\
  (forall av_info,
     lifecycle_of st = GameLoaded ->
     core_get_system_av_info (syms st) = Some av_info ->
     libretro_get_system_av_info true st
       = (Some av_info, log (EvCall "retro_get_system_av_info") st)) /\
  (lifecycle_of st <> GameLoaded \/ core_get_system_av_info (syms st) = None ->
   exists av_info,
     libretro_get_system_av_info true st = (Some av_info, st) /\
     (video_width st = 0 -> base_width (geometry av_info) = 320) /\
     (video_width st <> 0 -> base_width (geometry av_info) = video_width st) /\
     (video_height st = 0 -> base_height (geometry av_info) = 240) /\
     (video_height st <> 0 -> base_height (geometry av_info) = video_height st) /\
     max_width (geometry av_info) = base_width (geometry av_info) /\
     max_height (geometry av_info) = base_height (geometry av_info) /\
     aspect_ratio (geometry av_info) = 0%float /\
     (PrimFloat.ltb 0 (video_fps st) = true -> fps (timing av_info) = video_fps st) /\
     (PrimFloat.ltb 0 (video_fps st) = false -> fps (timing av_info) = 60%float) /\
     (PrimFloat.ltb 0 (audio_sample_rate st) = true ->
      sample_rate (timing av_info) = audio_sample_rate st) /\
     (PrimFloat.ltb 0 (audio_sample_rate st) = false ->
      sample_rate (timing av_info) = 44100%float) /\
     base_width (geometry av_info) <> 0 /\
     base_height (geometry av_info) <> 0 /\
     PrimFloat.ltb 0 (fps (timing av_info)) = true /\
     PrimFloat.ltb 0 (sample_rate (timing av_info)) = true).
Proof.
  split; [reflexivity|].
  assert (Hfallback : exists av_info,
    Some {| geometry :=
              {| base_width := if video_width st =? 0 then 320 else video_width st;
                 base_height := if video_height st =? 0 then 240 else video_height st;
                 max_width := if video_width st =? 0 then 320 else video_width st;
                 max_height := if video_height st =? 0 then 240 else video_height st;
                 aspect_ratio := 0%float |};
            timing :=
              {| fps := if PrimFloat.ltb 0 (video_fps st) then video_fps st else 60%float;
                 sample_rate := if PrimFloat.ltb 0 (audio_sample_rate st)
                                then audio_sample_rate st else 44100%float |} |}
    = Some av_info /\
    (video_width st = 0 -> base_width (geometry av_info) = 320) /\
    (video_width st <> 0 -> base_width (geometry av_info) = video_width st) /\
    (video_height st = 0 -> base_height (geometry av_info) = 240) /\
    (video_height st <> 0 -> base_height (geometry av_info) = video_height st) /\
    max_width (geometry av_info) = base_width (geometry av_info) /\
    max_height (geometry av_info) = base_height (geometry av_info) /\
    aspect_ratio (geometry av_info) = 0%float /\
    (PrimFloat.ltb 0 (video_fps st) = true -> fps (timing av_info) = video_fps st) /\
    (PrimFloat.ltb 0 (video_fps st) = false -> fps (timing av_info) = 60%float) /\
    (PrimFloat.ltb 0 (audio_sample_rate st) = true ->
     sample_rate (timing av_info) = audio_sample_rate st) /\
    (PrimFloat.ltb 0 (audio_sample_rate st) = false ->
     sample_rate (timing av_info) = 44100%float) /\
    base_width (geometry av_info) <> 0 /\
    base_height (geometry av_info) <> 0 /\
    PrimFloat.ltb 0 (fps (timing av_info)) = true /\
    PrimFloat.ltb 0 (sample_rate (timing av_info)) = true).
  { eexists. split; [reflexivity|]. cbn.
    destruct (Z.eqb_spec (video_width st) 0), (Z.eqb_spec (video_height st) 0),
      (PrimFloat.ltb 0 (video_fps st)) eqn:Hfps,
      (PrimFloat.ltb 0 (audio_sample_rate st)) eqn:Hrate;
      repeat split; try done; try lia. }
  destruct Hfallback as (fallback & Heq & Hprops).
  unfold libretro_get_system_av_info, lifecycle_of.
  split.
  - intros av_info Hstate Hentry. rewrite Hentry.
    destruct (core_handle st) as [h|]; [|done].
    by destruct (game_loaded st).
  - intros Hother. exists fallback. split; [|exact Hprops].
    rewrite <- Heq.
    destruct (core_handle st) as [h|]; [|done].
    destruct (core_get_system_av_info (syms st)) as [av_info|]; [|done].
    destruct (game_loaded st); [|done].
    by destruct Hother.
Qed.

(** Before any core is loaded the answer is 320 x 240 at 60 frames and
    44100 samples a second. *)
Lemma av_info_never_degenerate_witness :
  libretro_get_system_av_info true initial_host
  = (Some {| geometry := {| base_width := 320; base_height := 240; max_width := 320;
                            max_height := 240; aspect_ratio := 0%float |};
             timing := {| fps := 60%float; sample_rate := 44100%float |} |},
     initial_host).
Proof.
  destruct (av_info_never_degenerate initial_host) as (_ & _ & Hfallback).
  destruct Hfallback as (av_info & Hanswer & Hw & _ & Hh & _ & Hmw & Hmh & Har
                         & Hfps & _ & Hrate & _); [left; vm_compute; discriminate|].
  rewrite Hanswer.
  destruct av_info as [[bw bh mw mh ar] [f r]]. cbn in *.
  rewrite Hmw, Hmh, Hw, Hh, Har, Hfps, Hrate by reflexivity.
  reflexivity.
Defined.

(** X21: a successful [libretro_load_core] caches what the core's
    [retro_get_system_info] reports: [libretro_get_system_info] returns that
    structure, the name, version and extensions getters return its strings
    (the empty string for a null one), and its need-fullpath flag is the one
    [libretro_load_game] will consult. *)
Theorem load_core_caches_system_info os file st so info :
  dlopen os file = Some so ->
  mandatory_bound (dl_exports so) = true ->
  core_get_system_info (dl_exports so) = Some info ->
  libretro_get_system_info true (libretro_load_core os file st).2 = Some info /\
  libretro_get_name (libretro_load_core os file st).2
    = default EmptyString (library_name info) /\
  libretro_get_version (libretro_load_core os file st).2
    = default EmptyString (library_version info) /\
  libretro_get_extensions (libretro_load_core os file st).2
    = default EmptyString (valid_extensions info) /\
  need_fullpath (system_info (libretro_load_core os file st).2) = need_fullpath info.
Proof.
  intros Hopen Hsyms Hinfo.
  assert (Hcached : system_info (libretro_load_core os file st).2 = info).
  { unfold libretro_load_core, mandatory_bound in *. rewrite Hopen.
    generalize (if non_null (core_handle st) then libretro_unload_core st else st). intros st1.
    cbn [syms with_syms with_core_handle log with_trace].
    apply andb_prop in Hsyms as [Hsyms Hload].
    apply andb_prop in Hsyms as [Hsyms Hrun].
    apply andb_prop in Hsyms as [Hbinit Hdeinit].
    rewrite Hbinit, Hdeinit, Hrun, Hload, Hinfo. reflexivity. }
  unfold libretro_get_system_info, libretro_get_name, libretro_get_version,
    libretro_get_extensions.
  by rewrite Hcached.
Qed.

Lemma load_core_caches_system_info_witness :
  libretro_get_name (libretro_load_core stub_os "stub.dylib" initial_host).2 = "stub"%string.
Proof.
  apply (load_core_caches_system_info stub_os "stub.dylib" initial_host
           {| dl_handle := 4096; dl_exports := stub_symbols |} stub_info).
  - vm_compute. reflexivity.
  - vm_compute. reflexivity.
  - vm_compute. reflexivity.
Defined.

(** ** Calls outside their lifecycle state *)

(** X22: without a loaded game the game-scoped calls do nothing: frame
    execution, reset and unload-game leave the host, trace included, exactly
    as it was (the core is not called, the audio count is not reset), and
    save and load state return false. *)
Theorem game_scoped_calls_need_a_game os (st : host) :
  lifecycle_of st <> GameLoaded ->
  libretro_run_frame os st = st /\
  libretro_reset st = st /\
  libretro_unload_game st = st /\
  libretro_save_state st = (false, st) /\
  libretro_load_state st = (false, st).
Proof.
  unfold lifecycle_of, libretro_run_frame, libretro_reset, libretro_unload_game,
    libretro_save_state, libretro_load_state.
  intros Hstate.
  destruct (core_handle st) as [h|]; cbn [non_null andb].
  - destruct (game_loaded st); [done|].
    rewrite !andb_false_r.
    by destruct (core_run (syms st)), (core_serialize (syms st)),
      (core_unserialize (syms st)).
  - by destruct (core_run (syms st)).
Qed.

(** The stub core loaded, no game yet. *)
Lemma game_scoped_calls_need_a_game_witness :
  libretro_run_frame stub_os stub_core_loaded = stub_core_loaded.
Proof.
  assert (Hstate : lifecycle_of stub_core_loaded <> GameLoaded)
    by (vm_compute; discriminate).
  exact (proj1 (game_scoped_calls_need_a_game stub_os stub_core_loaded Hstate)).
Defined.
